(** * StateFieldViewer: tree normalisation, formatting and the edit/draft protocol

    A shallow embedding of the script part of
    [packages/applet/src/components/state/StateFieldViewer.vue].

    The component state (props, refs and the composables' refs) is a record
    that the event handlers pass along; a handler returns or throws, and
    hands payloads to the transport on the way.  The computed properties
    are functions of that record.  Array and object literals are allocated
    at fresh addresses so that strict equality on references can be
    stated. *)

From Stdlib Require Import Ascii String.
From stdpp Require Import base list strings gmap pretty sorting.

Local Open Scope string_scope.
Local Open Scope nat_scope.
Local Set Warnings "-register-all".

(** ** JavaScript values *)

(** The values of a state snapshot.  An object lists its own enumerable
    string keys in the order [Object.keys] yields them. *)
Inductive jsval : Type :=
  | VUndefined
  | VNull
  | VBool (b : bool)
  | VNumber (n : Z)
  | VString (s : string)
  | VArray (items : list jsval)
  | VObject (fields : list (string * jsval)).

Global Instance jsval_inhabited : Inhabited jsval := populate VUndefined.

(** [typeof v]. *)
Definition typeof (v : jsval) : string :=
  match v with
  | VUndefined => "undefined"
  | VNull => "object"
  | VBool _ => "boolean"
  | VNumber _ => "number"
  | VString _ => "string"
  | VArray _ => "object"
  | VObject _ => "object"
  end.

(** ToBoolean. *)
Definition truthy (v : jsval) : bool :=
  match v with
  | VUndefined | VNull => false
  | VBool b => b
  | VNumber n => negb (n =? 0)%Z
  | VString s => negb (String.eqb s "")
  | VArray _ | VObject _ => true
  end.

(** [a || b] on values. *)
Definition js_or (a b : jsval) : jsval := if truthy a then a else b.

(** [a && b] on values. *)
Definition js_and (a b : jsval) : jsval := if truthy a then b else a.

Definition nullish (v : jsval) : bool :=
  match v with
  | VUndefined | VNull => true
  | _ => false
  end.

(** [fields[k]] on the own properties of an object. *)
Fixpoint own_property (k : string) (fields : list (string * jsval)) : jsval :=
  match fields with
  | [] => VUndefined
  | (k', v) :: rest => if String.eqb k k' then v else own_property k rest
  end.

(** [v?.k]: undefined on a nullish receiver, and on a value without that
    property. *)
Definition opt_member (k : string) (v : jsval) : jsval :=
  match v with
  | VObject fields => own_property k fields
  | _ => VUndefined
  end.

(** [v.k]: a TypeError ([None]) on a nullish receiver. *)
Definition member (k : string) (v : jsval) : option jsval :=
  if nullish v then None else Some (opt_member k v).

(** [Object.keys(v)] for an object. *)
Definition object_keys (fields : list (string * jsval)) : list string :=
  fields.*1.

(** [s.split('.')]. *)
Fixpoint split_dot (s : string) : list string :=
  match s with
  | EmptyString => [EmptyString]
  | String c rest =>
      if Ascii.eqb c "."%char then EmptyString :: split_dot rest
      else match split_dot rest with
           | [] => [String c EmptyString]
           | h :: t => String c h :: t
           end
  end.

(** [s.lastIndexOf('.')], with [None] for -1. *)
Fixpoint lastIndexOf_dot (s : string) : option nat :=
  match s with
  | EmptyString => None
  | String c rest =>
      match lastIndexOf_dot rest with
      | Some i => Some (S i)
      | None => if Ascii.eqb c "."%char then Some 0 else None
      end
  end.

(** [s.slice(n)] for an index [n] that is not negative. *)
Fixpoint slice_from (n : nat) (s : string) : string :=
  match n, s with
  | 0, _ => s
  | S n', String _ rest => slice_from n' rest
  | S _, EmptyString => EmptyString
  end.

(** [a ?? b]. *)
Definition nullish_coalesce (a b : jsval) : jsval := if nullish a then b else a.

(** The text a template literal gives for an index. *)
Definition index_text (i : nat) : string := pretty i.

(** The double quote character, and the text of a pair of them. *)
Definition DQ : string := String (ascii_of_nat 34) EmptyString.

(** ToString, as a template literal applies it. *)
Fixpoint to_text (v : jsval) : string :=
  match v with
  | VUndefined => "undefined"
  | VNull => "null"
  | VBool true => "true"
  | VBool false => "false"
  | VNumber n => pretty n
  | VString s => s
  | VArray items =>
      (fix join (l : list jsval) : string :=
         match l with
         | [] => EmptyString
         | x :: rest =>
             (if nullish x then EmptyString else to_text x) ++
             match rest with [] => EmptyString | _ :: _ => "," ++ join rest end
         end) items
  | VObject _ => "[object Object]"
  end.

(** [list.includes(v)] for a list of strings. *)
Definition includes (l : list string) (v : jsval) : bool :=
  match v with
  | VString s => bool_decide (s ∈ l)
  | _ => false
  end.

Definition array_items (v : jsval) : list jsval :=
  match v with VArray items => items | _ => [] end.

Definition object_fields (v : jsval) : list (string * jsval) :=
  match v with VObject fields => fields | _ => [] end.

(** ** Modelled helpers of [@vue/devtools-shared] *)

(** Modelled from the spec: [isArray] of [@vue/devtools-shared], which is not
    under src/; the raw value is an array. *)
Definition isArray (v : jsval) : bool :=
  match v with VArray _ => true | _ => false end.

(** Modelled from the spec: [isObject] of [@vue/devtools-shared], which is not
    under src/; the raw value is a non-array object. *)
Definition isObject (v : jsval) : bool :=
  match v with VObject _ => true | _ => false end.

(** ** References and allocation *)

(** Arrays and objects are compared by reference.  An address identifies
    one allocation; the allocator hands out the next unused address. *)
Definition addr : Type := nat.

Definition Alloc (A : Type) : Type := addr → A * addr.

Definition alloc_ret {A} (x : A) : Alloc A := λ σ, (x, σ).

Definition alloc_bind {A B} (m : Alloc A) (k : A → Alloc B) : Alloc B :=
  λ σ, let '(x, σ') := m σ in k x σ'.

Global Instance alloc_mret : MRet Alloc := @alloc_ret.
Global Instance alloc_mbind : MBind Alloc := λ A B k m, alloc_bind m k.

(** An array together with its identity. *)
Record array (A : Type) : Type := Arr { ref : addr; elems : list A }.
Arguments Arr {A} _ _.
Arguments ref {A} _.
Arguments elems {A} _.

(** An array literal, [slice], [Object.keys]: each yields a new array. *)
Definition new_array {A} (xs : list A) : Alloc (array A) :=
  λ σ, (Arr σ xs, S σ).

(** [xs.map(f)]: a new array, and one new object per element for the object
    literal the callback builds. *)
Definition array_map {A B} (f : nat → A → B) (xs : array A) : Alloc (array B) :=
  λ σ, (Arr σ (imap f (elems xs)), S σ + length (elems xs)).

(** [a === v] for an array [a] and a value whose identity is [v_ref]
    ([None] when the value is a primitive). *)
Definition strict_eq_ref {A} (a : array A) (v_ref : option addr) : bool :=
  match v_ref with
  | Some l => Nat.eqb (ref a) l
  | None => false
  end.

(** ** Data model *)

(** A node object as the viewer builds it: property name to value. *)
Abbreviation node := (gmap string jsval).

(** [props.data], an [InspectorState].  [value_ref] is the identity of
    [value] when that is an array or an object.  [editable] is optional:
    reading it on a node that has none gives [undefined]. *)
Record InspectorState : Type := {
  key : string;
  value : jsval;
  value_ref : option addr;
  editable : jsval;
  stateType : option string;
  stateTypeName : jsval;
  _custom : jsval;
}.

(** What [getRaw] returns: [{ value, inherit, customType }]. *)
Module Raw.
Record t : Type := mk {
  value : jsval;
  inherit : gmap string jsval;
  customType : option string;
}.
End Raw.

(** [draftingNewProp]. *)
Module Drafting.
Record t : Type := mk { enable : bool; key : string; value : string }.
End Drafting.

(** The [state] part of an [InspectorStateEditorPayload]. *)
Module EditorState.
Record t : Type := mk { newKey : option string; type : string; value : jsval }.
End EditorState.

(** An [InspectorStateEditorPayload], the argument of [editInspectorState]. *)
Module Payload.
Record t : Type := mk {
  path : list string;
  inspectorId : string;
  type : option string;
  nodeId : string;
  state : EditorState.t;
}.
End Payload.

(** The state one viewer instance reads and writes: its props, its own
    [limit] ref, and the refs of the composables it uses. *)
Record Viewer : Type := {
  data : InspectorState;
  depth : nat;
  index : string;
  limit : nat;
  expanded : list string;
  ctx_inspectorId : string;
  ctx_disableEdit : bool;
  editingType : string;
  editing : bool;
  editingText : string;
  nodeId : string;
  draftingNewProp : Drafting.t;
}.

Definition STATE_FIELDS_LIMIT_SIZE : nat := 30.

Definition set_limit (n : nat) (s : Viewer) : Viewer :=
  {| data := data s; depth := depth s; index := index s; limit := n;
     expanded := expanded s; ctx_inspectorId := ctx_inspectorId s;
     ctx_disableEdit := ctx_disableEdit s; editingType := editingType s;
     editing := editing s; editingText := editingText s; nodeId := nodeId s;
     draftingNewProp := draftingNewProp s |}.

Definition set_expanded (e : list string) (s : Viewer) : Viewer :=
  {| data := data s; depth := depth s; index := index s; limit := limit s;
     expanded := e; ctx_inspectorId := ctx_inspectorId s;
     ctx_disableEdit := ctx_disableEdit s; editingType := editingType s;
     editing := editing s; editingText := editingText s; nodeId := nodeId s;
     draftingNewProp := draftingNewProp s |}.

Definition set_editing (b : bool) (s : Viewer) : Viewer :=
  {| data := data s; depth := depth s; index := index s; limit := limit s;
     expanded := expanded s; ctx_inspectorId := ctx_inspectorId s;
     ctx_disableEdit := ctx_disableEdit s; editingType := editingType s;
     editing := b; editingText := editingText s; nodeId := nodeId s;
     draftingNewProp := draftingNewProp s |}.

Definition set_editingText (t : string) (s : Viewer) : Viewer :=
  {| data := data s; depth := depth s; index := index s; limit := limit s;
     expanded := expanded s; ctx_inspectorId := ctx_inspectorId s;
     ctx_disableEdit := ctx_disableEdit s; editingType := editingType s;
     editing := editing s; editingText := t; nodeId := nodeId s;
     draftingNewProp := draftingNewProp s |}.

Definition set_draftingNewProp (d : Drafting.t) (s : Viewer) : Viewer :=
  {| data := data s; depth := depth s; index := index s; limit := limit s;
     expanded := expanded s; ctx_inspectorId := ctx_inspectorId s;
     ctx_disableEdit := ctx_disableEdit s; editingType := editingType s;
     editing := editing s; editingText := editingText s; nodeId := nodeId s;
     draftingNewProp := d |}.

(** How a handler ends.  It returns, leaving a component state and the
    payloads it handed to [editInspectorState]; or an exception leaves it,
    with the state and the payloads as they were at the throw. *)
Inductive outcome : Type :=
  | Returned (s : Viewer) (out : list Payload.t)
  | Thrown (s : Viewer) (out : list Payload.t).

Definition state_of (r : outcome) : Viewer :=
  match r with Returned s _ | Thrown s _ => s end.

Definition sent (r : outcome) : list Payload.t :=
  match r with Returned _ out | Thrown _ out => out end.

Definition thrown (r : outcome) : bool :=
  match r with Returned _ _ => false | Thrown _ _ => true end.

(** The object literal of a child:
    [{ key, value, ...inherit, editable, creating: false }].  Properties
    written later replace earlier ones of the same name. *)
Definition child_node (k : string) (v : jsval) (inh : node) (e : jsval) : node :=
  <["creating" := VBool false]>
    (<["editable" := e]>
       (inh ∪ (<["value" := v]> {["key" := VString k]}))).

(** The [key] of a node object, as text. *)
Definition node_key (c : node) : string :=
  match c !! "key" with
  | Some (VString k) => k
  | _ => EmptyString
  end.

(** A stable insertion sort for a strict comparison [lt]. *)
Section sort_by.
Context {A : Type} (lt : A → A → bool).

Fixpoint insert_by (x : A) (l : list A) : list A :=
  match l with
  | [] => [x]
  | y :: l' => if lt y x then y :: insert_by x l' else x :: l
  end.

Definition sort_by (l : list A) : list A := foldr insert_by [] l.
End sort_by.

(** The comparison of [sortByKey]: [a.key < b.key]. *)
Definition key_lt (a b : node) : bool := String.ltb (node_key a) (node_key b).

Definition sort_nodes (l : list node) : list node := sort_by key_lt l.

(** Modelled from the spec: [sortByKey] of [@vue/devtools-shared], which is
    not under src/; it yields the nodes ordered by key, lexically, equal keys
    keeping their order, as a sorted copy. *)
Definition sortByKey (xs : array node) : Alloc (array node) :=
  new_array (sort_nodes (elems xs)).

(** Modelled from the spec: [toggleEditing] of [useStateEditor]
    ([~/composables/state-editor]), which is not under src/; it flips the
    [editing] ref, so from Editing it leads back to Viewing. *)
Definition toggleEditing (s : Viewer) : Viewer := set_editing (negb (editing s)) s.

(** Modelled from the spec: [toggleExpanded] of [useToggleExpanded]
    ([~/composables/toggle-expanded]), which is not under src/; it toggles the
    membership of a row id in the set of expanded rows. *)
Definition toggleExpanded (id : string) (s : Viewer) : Viewer :=
  set_expanded
    (if bool_decide (id ∈ expanded s) then filter (λ x, x ≠ id) (expanded s)
     else (expanded s ++ [id])%list)
    s.

(** Modelled from the spec: [resetDrafting] of [useStateEditorDrafting]
    ([~/composables/state-editor]), which is not under src/; it clears the
    single draft slot. *)
Definition cleared_draft : Drafting.t :=
  Drafting.mk false EmptyString EmptyString.

Definition resetDrafting (s : Viewer) : Viewer := set_draftingNewProp cleared_draft s.

(** The events the template wires to the handlers of the script. *)
Inductive event : Type :=
  | ClickRow
  | EnableEditInput
  | CancelEdit
  | InputText (text : string)
  | SubmitEdit
  | AddNewProp (kind : string)
  | InputDraftKey (k : string)
  | InputDraftValue (v : string)
  | SubmitDraft
  | CancelDraft
  | ShowMore.

(** ** The component *)

Section StateFieldViewer.

(** The helpers of [@vue/devtools-kit] that the script imports.  [toSubmit]
    decodes a text and throws on one it cannot decode, which is [None]
    here. *)
Variable getRaw : jsval → Raw.t.
Variable getInspectorStateValueType : jsval → string.
Variable formatInspectorStateValue : jsval → string.
Variable toEdit : jsval → option string → string.
Variable toSubmit : string → option string → option jsval.

(** [addNewProp] of [useStateEditorDrafting]: the draft it begins for a kind
    of value and the raw value of the parent. *)
Variable addNewPropApi : string → jsval → Drafting.t.

(** *** Computed properties *)

Definition displayedValue (s : Viewer) : string :=
  formatInspectorStateValue (value (data s)).

Definition type (s : Viewer) : string :=
  getInspectorStateValueType (value (data s)).

Definition raw (s : Viewer) : Raw.t := getRaw (value (data s)).

(** The class of the value cell; reading [_custom] of a nullish value is a
    TypeError. *)
Definition stateFormatClass (s : Viewer) : option string :=
  if String.eqb (type s) "custom" then
    c ← member "_custom" (value (data s));
    Some (to_text (nullish_coalesce (opt_member "type" c) (VString "string"))
            ++ "-custom-state")
  else Some EmptyString.

Definition fieldsCount (s : Viewer) : nat :=
  let value := Raw.value (raw s) in
  if isArray value then length (array_items value)
  else if isObject value then length (object_keys (object_fields value))
  else 0.

Definition normalizedDisplayedKey (s : Viewer) : string :=
  let key := key (data s) in
  match lastIndexOf_dot key with
  | None => key
  | Some lastDotIndex => slice_from (lastDotIndex + 1) key
  end.

Definition directlyDisplayedValueMap : list string := ["Reactive"].

(** [_custom?.stateTypeName || stateTypeName] of [props.data]. *)
Definition extraDisplayedValue (s : Viewer) : jsval :=
  js_or (opt_member "stateTypeName" (_custom (data s)))
        (stateTypeName (data s)).

(** [type === 'custom' && !value._custom?.type]; reading [_custom] of a
    nullish value is a TypeError. *)
Definition custom_without_type (s : Viewer) : option bool :=
  if String.eqb (type s) "custom" then
    c ← member "_custom" (value (data s));
    Some (negb (truthy (opt_member "type" c)))
  else Some false.

Definition normalizedDisplayedValue (s : Viewer) : option string :=
  let extraDisplayedValue := extraDisplayedValue s in
  if includes directlyDisplayedValueMap extraDisplayedValue then
    Some (to_text extraDisplayedValue)
  else if truthy (opt_member "abstract" (opt_member "fields" (value (data s)))) then
    Some EmptyString
  else
    untyped ← custom_without_type s;
    let _value :=
      if untyped : bool then DQ ++ displayedValue s ++ DQ
      else if String.eqb (displayedValue s) "" then DQ ++ DQ
      else displayedValue s in
    let result :=
      "<span class=" ++ DQ ++ type s ++ "-state-type" ++ DQ ++ ">"
        ++ _value ++ "</span>" in
    if truthy extraDisplayedValue then
      Some (result ++ " <span class=" ++ DQ ++ "text-gray-500" ++ DQ ++ ">("
              ++ to_text extraDisplayedValue ++ ")</span>")
    else Some result.

(** The last line of [normalizedDisplayedChildren]:
    [displayedChildren === props.data.value ? [] : displayedChildren]. *)
Definition self_reference_guard (s : Viewer) (displayedChildren : array node)
    : Alloc (array node) :=
  if strict_eq_ref displayedChildren (value_ref (data s)) then new_array []
  else mret displayedChildren.

Definition normalizedDisplayedChildren (s : Viewer) : Alloc (array node) :=
  let value := Raw.value (raw s) in
  let inherit := Raw.inherit (raw s) in
  let customType := Raw.customType (raw s) in
  let isUneditableType := bool_decide (customType = Some "set") in
  displayedChildren ← new_array [];
  if isArray value then
    sliced ← new_array (take (limit s) (array_items value));
    array_map (λ i item,
               child_node (key (data s) ++ "." ++ index_text i) item inherit
                          (js_and (editable (data s))
                                  (VBool (negb isUneditableType))))
              sliced
  else
    displayedChildren ←
      (if isObject value then
         keys ← new_array (object_keys (object_fields value));
         sliced ← new_array (take (limit s) (elems keys));
         mapped ← array_map
                    (λ _ k,
                     child_node (key (data s) ++ "." ++ k)
                                (own_property k (object_fields value)) inherit
                                (js_and (editable (data s))
                                        (VBool (negb isUneditableType))))
                    sliced;
         if negb (String.eqb (type s) "custom") then sortByKey mapped
         else mret mapped
       else mret displayedChildren);
    self_reference_guard s displayedChildren.

(** The child list a render pass at allocator state [σ] obtains. *)
Definition children (s : Viewer) (σ : addr) : list node :=
  elems (normalizedDisplayedChildren s σ).1.

Definition hasChildren (s : Viewer) (σ : addr) : bool :=
  bool_decide (0 < length (children s σ)).

(** *** The template *)

Definition expanded_here (s : Viewer) : bool :=
  bool_decide (index_text (depth s) ++ "-" ++ index s ∈ expanded s).

(** The [v-if] chain around the Show more button. *)
Definition show_more_visible (s : Viewer) (σ : addr) : bool :=
  hasChildren s σ && expanded_here s && bool_decide (limit s < fieldsCount s).

(** The click handler of the Show more button. *)
Definition show_more (s : Viewer) : Viewer :=
  set_limit (limit s + STATE_FIELDS_LIMIT_SIZE) s.

(** The [v-if] chain around the row of the draft, which sits inside the
    block of the children. *)
Definition draft_row_visible (s : Viewer) (σ : addr) : bool :=
  hasChildren s σ && expanded_here s && Drafting.enable (draftingNewProp s).

(** *** Editing *)

(** The callback of the watcher on [editing]. *)
Definition watch_editing (v : bool) (s : Viewer) : Viewer :=
  if v then
    let value := Raw.value (raw s) in
    set_editingText (toEdit value (Raw.customType (raw s))) s
  else set_editingText "" s.

(** A watcher runs once the handler is done, when the watched ref
    changed. *)
Definition flush_watch (before : bool) (s : Viewer) : Viewer :=
  if bool_decide (editing s = before) then s else watch_editing (editing s) s.

(** [submit].  The payload literal is evaluated before
    [editInspectorState] is called and [toggleEditing] comes last: when
    [toSubmit] throws, nothing has been handed over and nothing has been
    written. *)
Definition submit (s : Viewer) : outcome :=
  let data := data s in
  match toSubmit (editingText s) (Raw.customType (raw s)) with
  | None => Thrown s []
  | Some decoded =>
      let payload :=
        Payload.mk (split_dot (key data)) (ctx_inspectorId s) (stateType data)
          (nodeId s)
          (EditorState.mk None (editingType s) decoded) in
      Returned (toggleEditing s) [payload]
  end.

(** The watchers run once the handler is left, by a return or by a
    throw. *)
Definition after_handler (before : bool) (r : outcome) : outcome :=
  match r with
  | Returned s out => Returned (flush_watch before s) out
  | Thrown s out => Thrown (flush_watch before s) out
  end.

(** The submit event of the input editor: the handler, then the
    watchers. *)
Definition on_submit (s : Viewer) : outcome :=
  after_handler (editing s) (submit s).

(** The enable-edit-input event of the field editor and the cancel event
    of the input editor, both wired to [toggleEditing]. *)
Definition on_toggleEditing (s : Viewer) : Viewer * list Payload.t :=
  (flush_watch (editing s) (toggleEditing s), []).

(** *** Drafting a new property *)

Definition addNewProp (type : string) (s : Viewer) : Viewer :=
  let index := index_text (depth s) ++ "-" ++ index s in
  let s := if negb (bool_decide (index ∈ expanded s)) then toggleExpanded index s
           else s in
  set_draftingNewProp (addNewPropApi type (Raw.value (raw s))) s.

(** [submitDrafting].  [path] is a local array; [toSubmit] is called
    twice on the draft text, with no [customType], inside the payload
    literal; [resetDrafting] comes last. *)
Definition submitDrafting (s : Viewer) : outcome :=
  let data := data s in
  let path := (split_dot (key data) ++ [Drafting.key (draftingNewProp s)])%list in
  match toSubmit (Drafting.value (draftingNewProp s)) None,
        toSubmit (Drafting.value (draftingNewProp s)) None with
  | Some typed, Some decoded =>
      let payload :=
        Payload.mk path (ctx_inspectorId s) (stateType data) (nodeId s)
          (EditorState.mk (Some (Drafting.key (draftingNewProp s)))
             (typeof typed) decoded) in
      Returned (resetDrafting s) [payload]
  | _, _ => Thrown s []
  end.

(** The cancel event of the draft row. *)
Definition cancelDrafting (s : Viewer) : Viewer * list Payload.t :=
  (resetDrafting s, []).

(** *** The event loop *)

(** What each event of the template runs.  The inputs write the refs their
    [v-model] names. *)
Definition handle (e : event) (s : Viewer) : outcome :=
  match e with
  | ClickRow => Returned (toggleExpanded (index_text (depth s) ++ "-" ++ index s) s) []
  | EnableEditInput | CancelEdit =>
      let '(s', out) := on_toggleEditing s in Returned s' out
  | InputText text => Returned (set_editingText text s) []
  | SubmitEdit => on_submit s
  | AddNewProp kind => Returned (addNewProp kind s) []
  | InputDraftKey k =>
      Returned
        (set_draftingNewProp
           (Drafting.mk (Drafting.enable (draftingNewProp s)) k
                        (Drafting.value (draftingNewProp s))) s) []
  | InputDraftValue v =>
      Returned
        (set_draftingNewProp
           (Drafting.mk (Drafting.enable (draftingNewProp s))
                        (Drafting.key (draftingNewProp s)) v) s) []
  | SubmitDraft => submitDrafting s
  | CancelDraft => let '(s', out) := cancelDrafting s in Returned s' out
  | ShowMore => Returned (show_more s) []
  end.

(** A sequence of events: the state it leaves and the payloads handed
    over, in order.  An exception ends the handler it leaves, not the
    component. *)
Fixpoint run_events (es : list event) (s : Viewer) : Viewer * list Payload.t :=
  match es with
  | [] => (s, [])
  | e :: es' =>
      let r := handle e s in
      let '(s', out) := run_events es' (state_of r) in
      (s', (sent r ++ out)%list)
  end.

End StateFieldViewer.

(** ** Stand-ins for the imported helpers

    Concrete functions in the place of the [@vue/devtools-kit] helpers, to
    run the component on explicit inputs. *)

Definition sample_type (v : jsval) : string :=
  if truthy (opt_member "_custom" v) then "custom"
  else match v with
       | VUndefined | VNull => "null"
       | VBool _ | VNumber _ => "literal"
       | VString _ => "string"
       | VArray _ => "array"
       | VObject _ => "plain-object"
       end.

Definition sample_getRaw (v : jsval) : Raw.t :=
  if truthy (opt_member "_custom" v) then
    let c := opt_member "_custom" v in
    Raw.mk (opt_member "value" c)
           (list_to_map (object_fields (opt_member "fields" c)))
           (match opt_member "type" c with VString t => Some t | _ => None end)
  else Raw.mk v ∅ None.

Definition sample_format (v : jsval) : string :=
  if truthy (opt_member "_custom" v) then
    to_text (opt_member "value" (opt_member "_custom" v))
  else match v with
       | VArray items => "Array[" ++ pretty (length items) ++ "]"
       | VObject _ => "Object"
       | _ => to_text v
       end.

Definition sample_toEdit (v : jsval) (customType : option string) : string :=
  to_text v.

(** The number a text of decimal digits writes. *)
Fixpoint digits (acc : Z) (text : string) : option Z :=
  match text with
  | EmptyString => Some acc
  | String c rest =>
      let n := nat_of_ascii c in
      if (48 <=? n) && (n <=? 57)
      then digits (10 * acc + Z.of_nat (n - 48)) rest
      else None
  end.

(** A decoder of the literals true, false and null and of decimal numbers,
    which takes the text as it is for a date; it throws on any other
    text, the empty one included. *)
Definition sample_toSubmit (text : string) (customType : option string)
    : option jsval :=
  match customType with
  | Some "date" => Some (VString text)
  | _ =>
      if String.eqb text "true" then Some (VBool true)
      else if String.eqb text "false" then Some (VBool false)
      else if String.eqb text "null" then Some VNull
      else if String.eqb text "" then None
      else VNumber <$> digits 0 text
  end.

(** A drafting composable that begins an enabled draft. *)
Definition sample_addNewProp (ty : string) (v : jsval) : Drafting.t :=
  Drafting.mk true "newProp" "undefined".

Definition sample_state (k : string) (v : jsval) : InspectorState :=
  {| key := k; value := v; value_ref := Some 0; editable := VBool true;
     stateType := Some "data"; stateTypeName := VUndefined;
     _custom := VUndefined |}.

Definition sample_viewer (d : InspectorState) : Viewer :=
  {| data := d; depth := 0; index := "0"; limit := STATE_FIELDS_LIMIT_SIZE;
     expanded := ["0-0"]; ctx_inspectorId := "components";
     ctx_disableEdit := false; editingType := "string"; editing := false;
     editingText := ""; nodeId := "app:1";
     draftingNewProp := cleared_draft |}.

(** A plain object with the keys b and a, in that order. *)
Definition object_b_a : Viewer :=
  sample_viewer (sample_state "p" (VObject [("b", VNumber 1); ("a", VNumber 2)])).

(** An array of 45 numbers. *)
Definition array_of_45 : Viewer :=
  sample_viewer (sample_state "list" (VArray (replicate 45 (VNumber 7)))).

(** A set of two members, as a custom value, under an editable node. *)
Definition set_of_two : Viewer :=
  sample_viewer
    (sample_state "p"
       (VObject [("_custom",
                  VObject [("type", VString "set");
                           ("value", VArray [VNumber 1; VString "x"])])])).

(** A custom value with no type of its own, and a type name on the node. *)
Definition untyped_custom : Viewer :=
  sample_viewer
    {| key := "p.q";
       value := VObject [("_custom", VObject [("value", VString "x")])];
       value_ref := Some 0; editable := VBool true; stateType := Some "data";
       stateTypeName := VString "Ref"; _custom := VUndefined |}.

(** A node whose type name is the sentinel. *)
Definition reactive_node : Viewer :=
  sample_viewer
    {| key := "state"; value := VObject [("n", VNumber 1)];
       value_ref := Some 0; editable := VBool true; stateType := Some "data";
       stateTypeName := VString "Reactive"; _custom := VUndefined |}.

(** A value whose fields are marked abstract. *)
Definition abstract_value : Viewer :=
  sample_viewer
    (sample_state "c"
       (VObject [("fields", VObject [("abstract", VBool true)]);
                 ("value", VString "hidden")])).

(** The field a.b while its text abc, which does not decode, is being
    edited. *)
Definition edit_session : Viewer :=
  set_editingText "abc"
    (set_editing true (sample_viewer (sample_state "a.b" (VString "x")))).

(** The field a.b while the text 7 is being edited. *)
Definition edit_number : Viewer :=
  set_editingText "7"
    (set_editing true (sample_viewer (sample_state "a.b" (VNumber 5)))).

(** A date, as a custom value, while the text 2020 is being edited, and
    the same text as the value of a draft under it. *)
Definition edit_date : Viewer :=
  set_draftingNewProp (Drafting.mk true "c" "2020")
    (set_editingText "2020"
       (set_editing true
          (sample_viewer
             (sample_state "d"
                (VObject [("_custom",
                           VObject [("type", VString "date");
                                    ("value", VString "2019")])]))))).

(** The parent a.b with a draft whose value does not decode. *)
Definition draft_malformed : Viewer :=
  set_draftingNewProp (Drafting.mk true "c" "{")
    (sample_viewer (sample_state "a.b" (VObject [("k", VNumber 1)]))).

(** The parent a.b with the draft c: true. *)
Definition draft_session : Viewer :=
  set_draftingNewProp (Drafting.mk true "c" "true")
    (sample_viewer (sample_state "a.b" (VObject [("k", VNumber 1)]))).

(** The same draft under the set. *)
Definition draft_under_set : Viewer :=
  set_draftingNewProp (Drafting.mk true "c" "true") set_of_two.

(** The object with the keys b and a while another field is edited and a
    draft is open. *)
Definition object_b_a_busy : Viewer :=
  set_draftingNewProp (Drafting.mk true "z" "1")
    (set_editingText "t" (set_editing true object_b_a)).

(** A node whose value is the empty string. *)
Definition empty_text : Viewer := sample_viewer (sample_state "s" (VString "")).

(** A component instance as a custom value: its descriptor, with the
    abstract mark, sits under [_custom]. *)
Definition abstract_component : Viewer :=
  sample_viewer
    (sample_state "c"
       (VObject [("_custom",
                  VObject [("type", VString "component");
                           ("value", VString "App");
                           ("fields", VObject [("abstract", VBool true)])])])).

(** A custom object whose descriptor has an entry named key. *)
Definition fields_with_key : Viewer :=
  sample_viewer
    (sample_state "p"
       (VObject [("_custom",
                  VObject [("type", VString "map");
                           ("value", VObject [("a", VNumber 1); ("b", VNumber 2)]);
                           ("fields", VObject [("key", VString "k")])])])).

(** The same set under a node that has no [editable]. *)
Definition set_without_editable : Viewer :=
  sample_viewer
    {| key := "p";
       value := VObject [("_custom",
                          VObject [("type", VString "set");
                                   ("value", VArray [VNumber 1; VString "x"])])];
       value_ref := Some 0; editable := VUndefined; stateType := Some "data";
       stateTypeName := VUndefined; _custom := VUndefined |}.

(** A node that names Reactive while its custom wrapper names Ref. *)
Definition reactive_under_ref : Viewer :=
  sample_viewer
    {| key := "state"; value := VNumber 1; value_ref := None;
       editable := VBool true; stateType := Some "data";
       stateTypeName := VString "Reactive";
       _custom := VObject [("stateTypeName", VString "Ref")] |}.

(** The viewer of the first member of [set_of_two], with the text 3 in
    its editor. *)
Definition first_member : Viewer :=
  set_editingText "3"
    (sample_viewer
       {| key := "p.0"; value := VNumber 1; value_ref := None;
          editable := VBool false; stateType := None;
          stateTypeName := VUndefined; _custom := VUndefined |}).

(** A plain object with a key that has a dot, and the viewer of its
    child. *)
Definition dotted_key : Viewer :=
  sample_viewer (sample_state "p" (VObject [("a.b", VNumber 1)])).

Definition dotted_child : Viewer :=
  set_editingText "3"
    (sample_viewer
       {| key := "p.a.b"; value := VNumber 1; value_ref := None;
          editable := VBool true; stateType := None;
          stateTypeName := VUndefined; _custom := VUndefined |}).

(** The viewer of the property c of a.b, once it exists, with the text
    false in its editor. *)
Definition drafted_child : Viewer :=
  set_editingText "false" (sample_viewer (sample_state "a.b.c" (VBool true))).

(** A set with one member that is an array, and the viewer of that
    member. *)
Definition set_of_arrays : Viewer :=
  sample_viewer
    (sample_state "p"
       (VObject [("_custom",
                  VObject [("type", VString "set");
                           ("value", VArray [VArray [VNumber 1]])])])).

Definition array_member : Viewer :=
  sample_viewer
    {| key := "p.0"; value := VArray [VNumber 1]; value_ref := Some 0;
       editable := VBool false; stateType := None; stateTypeName := VUndefined;
       _custom := VUndefined |}.

(** ** Vocabulary of the statements *)

(** The value of the node existed before the render pass started: its
    address, if it has one, is below the allocator state. *)
Definition allocated_before (s : Viewer) (σ : addr) : Prop :=
  ∀ l, value_ref (data s) = Some l → l < σ.

(** The [editable] every child of a node receives:
    [props.data.editable && !isUneditableType]. *)
Definition child_editable (s : Viewer) (r : Raw.t) : jsval :=
  js_and (editable (data s))
         (VBool (negb (bool_decide (Raw.customType r = Some "set")))).

(** The child built for element [item] at index [i] of an array. *)
Definition array_child (s : Viewer) (r : Raw.t) (i : nat) (item : jsval) : node :=
  child_node (key (data s) ++ "." ++ index_text i) item (Raw.inherit r)
             (child_editable s r).

(** The child built for the own key [k] of an object. *)
Definition object_child (s : Viewer) (r : Raw.t)
    (fields : list (string * jsval)) (k : string) : node :=
  child_node (key (data s) ++ "." ++ k) (own_property k fields) (Raw.inherit r)
             (child_editable s r).

(** The children a pass shows are the first [limit] entries. *)
Definition shown_keys (s : Viewer) (fields : list (string * jsval)) : list string :=
  take (limit s) (object_keys fields).

(** The value markup: the text in a span tagged with the display type. *)
Definition state_span (ty body : string) : string :=
  "<span class=" ++ DQ ++ ty ++ "-state-type" ++ DQ ++ ">" ++ body ++ "</span>".

(** The type-name annotation that follows the value, in parentheses. *)
Definition annotation (extra : jsval) : string :=
  " <span class=" ++ DQ ++ "text-gray-500" ++ DQ ++ ">(" ++ to_text extra
    ++ ")</span>".

(** The value of the node has a [fields] whose [abstract] is truthy. *)
Definition abstract_fields (s : Viewer) : bool :=
  truthy (opt_member "abstract" (opt_member "fields" (value (data s)))).

(** The part of a path after its last dot, the whole path when it has
    none. *)
Definition after_last_dot (k : string) : string :=
  match lastIndexOf_dot k with
  | None => k
  | Some i => slice_from (i + 1) k
  end.

(** The viewer [t] renders the child object [c]: the [data] prop it was
    given has the key, the value and the [editable] of [c]. *)
Definition renders (t : Viewer) (c : node) : Prop :=
  c !! "key" = Some (VString (key (data t)))
  ∧ c !! "value" = Some (value (data t))
  ∧ c !! "editable" = Some (editable (data t)).

(** The value a handler handed over, when it handed one payload over. *)
Definition decoded (r : outcome) : option jsval :=
  match sent r with
  | [p] => Some (EditorState.value (Payload.state p))
  | _ => None
  end.

(** A custom value lacking an explicit type: the display type is custom
    and [_custom.type] of the value is not truthy. *)
Definition lacks_explicit_type (ty : string) (v : jsval) : bool :=
  String.eqb ty "custom" && negb (truthy (opt_member "type" (opt_member "_custom" v))).


(** * Properties *)

(** ** Object literals *)

Lemma child_node_creating k v (inh : node) e :
  child_node k v inh e !! "creating" = Some (VBool false).
Proof. unfold child_node. by rewrite lookup_insert_eq. Qed.

Lemma child_node_editable k v (inh : node) e :
  child_node k v inh e !! "editable" = Some e.
Proof.
  unfold child_node.
  rewrite lookup_insert_ne by done. by rewrite lookup_insert_eq.
Qed.

(** A property of the spread object wins over [key] and [value]. *)
Lemma child_node_inherited k v (inh : node) e p x :
  p ≠ "creating" → p ≠ "editable" → inh !! p = Some x →
  child_node k v inh e !! p = Some x.
Proof.
  intros Hc He Hp. unfold child_node.
  rewrite !lookup_insert_ne by done.
  by apply lookup_union_Some_l.
Qed.

Lemma child_node_key k v (inh : node) e :
  inh !! "key" = None → child_node k v inh e !! "key" = Some (VString k).
Proof.
  intros Hk. unfold child_node.
  rewrite !lookup_insert_ne by done.
  rewrite lookup_union_r by done.
  rewrite lookup_insert_ne by done. by rewrite lookup_singleton_eq.
Qed.

Lemma child_node_value k v (inh : node) e :
  inh !! "value" = None → child_node k v inh e !! "value" = Some v.
Proof.
  intros Hk. unfold child_node.
  rewrite !lookup_insert_ne by done.
  rewrite lookup_union_r by done.
  by rewrite lookup_insert_eq.
Qed.

Lemma node_key_child_node k v (inh : node) e :
  inh !! "key" = None → node_key (child_node k v inh e) = k.
Proof. intros Hk. unfold node_key. by rewrite child_node_key. Qed.

(** ** Ordering by key *)

Section sort_by_facts.
Context {A : Type} (lt : A → A → bool).

Lemma insert_by_perm x l : insert_by lt x l ≡ₚ x :: l.
Proof.
  induction l as [|y l IH]; simpl; [done|].
  destruct (lt y x); [|done].
  rewrite IH. apply Permutation_swap.
Qed.

Lemma sort_by_perm l : sort_by lt l ≡ₚ l.
Proof.
  induction l as [|x l IH]; simpl; [done|].
  rewrite insert_by_perm. by f_equiv.
Qed.

Lemma length_sort_by l : length (sort_by lt l) = length l.
Proof. apply Permutation_length, sort_by_perm. Qed.

Context (le : relation A).
Hypothesis lt_le : ∀ a b, lt a b = true → le a b.
Hypothesis not_lt_le : ∀ a b, lt a b = false → le b a.

Lemma insert_by_sorted x l : Sorted le l → Sorted le (insert_by lt x l).
Proof.
  induction 1 as [|y l Hl IH Hy]; simpl.
  { repeat constructor. }
  destruct (lt y x) eqn:Hyx.
  - constructor; [done|].
    destruct Hy as [|z l Hz]; simpl.
    + constructor. by apply lt_le.
    + destruct (lt z x); constructor; [done|by apply lt_le].
  - constructor; [by constructor|]. constructor. by apply not_lt_le.
Qed.

Lemma sort_by_sorted l : Sorted le (sort_by lt l).
Proof.
  induction l as [|x l IH]; simpl; [constructor|].
  by apply insert_by_sorted.
Qed.
End sort_by_facts.

(** Sorting commutes with a map that respects the comparison. *)
Lemma insert_by_fmap {A B} (lt1 : A → A → bool) (lt2 : B → B → bool) (f : A → B) x k :
  (∀ a b, lt2 (f a) (f b) = lt1 a b) →
  insert_by lt2 (f x) (f <$> k) = f <$> insert_by lt1 x k.
Proof.
  intros Hf. induction k as [|y k IHk]; simpl; [done|].
  rewrite Hf. destruct (lt1 y x); simpl; [|done].
  f_equal. exact IHk.
Qed.

Lemma sort_by_fmap {A B} (lt1 : A → A → bool) (lt2 : B → B → bool) (f : A → B) l :
  (∀ a b, lt2 (f a) (f b) = lt1 a b) →
  sort_by lt2 (f <$> l) = f <$> sort_by lt1 l.
Proof.
  intros Hf. unfold sort_by. induction l as [|x l IH]; simpl; [done|].
  etrans; [|by apply insert_by_fmap]. f_equal. exact IH.
Qed.

Lemma string_ltb_leb a b : String.ltb a b = true → String.le a b.
Proof.
  unfold String.le, String.ltb, String.leb.
  by destruct (String.compare a b).
Qed.

Lemma string_not_ltb_leb a b : String.ltb a b = false → String.le b a.
Proof.
  unfold String.le, String.ltb, String.leb.
  rewrite (String.compare_antisym b a).
  by destruct (String.compare a b).
Qed.

(** A common prefix does not change the order. *)
Lemma string_compare_app p a b :
  String.compare (p ++ a) (p ++ b) = String.compare a b.
Proof.
  induction p as [|c p IH]; simpl; [done|].
  unfold Ascii.compare. by rewrite N.compare_refl.
Qed.

Lemma string_ltb_app p a b : String.ltb (p ++ a) (p ++ b) = String.ltb a b.
Proof. unfold String.ltb. by rewrite string_compare_app. Qed.

Lemma sort_strings_sorted l : StronglySorted String.le (sort_by String.ltb l).
Proof.
  apply Sorted_StronglySorted; [apply _|].
  apply sort_by_sorted; auto using string_ltb_leb, string_not_ltb_leb.
Qed.

Lemma sort_nodes_sorted l :
  StronglySorted (λ a b, String.le (node_key a) (node_key b)) (sort_nodes l).
Proof.
  apply Sorted_StronglySorted.
  { intros a b c. apply (transitivity (R:=String.le)). }
  apply sort_by_sorted; unfold key_lt;
    auto using string_ltb_leb, string_not_ltb_leb.
Qed.

(** ** The child list, path by path *)

Ltac unfold_children :=
  unfold children, normalizedDisplayedChildren.

Ltac unfold_hasChildren := unfold hasChildren.
Ltac unfold_fieldsCount := unfold fieldsCount.
Ltac unfold_show_more_visible := unfold show_more_visible.
Ltac unfold_computed := unfold raw, type, displayedValue.
Ltac unfold_stateFormatClass := unfold stateFormatClass.
Ltac unfold_on_toggleEditing := unfold on_toggleEditing.
Ltac unfold_submit := unfold on_submit, after_handler, submit.
Ltac unfold_submitDrafting := unfold submitDrafting.
Ltac step_run_events := cbn [run_events].
Ltac unfold_handle :=
  unfold handle, on_submit, after_handler, submit, submitDrafting,
    on_toggleEditing, cancelDrafting, addNewProp, show_more, flush_watch,
    watch_editing, toggleEditing, toggleExpanded, resetDrafting.
Ltac unfold_format :=
  unfold normalizedDisplayedValue, custom_without_type, extraDisplayedValue.

Ltac run_alloc :=
  unfold self_reference_guard, mbind, alloc_mbind, alloc_bind, mret, alloc_mret,
    alloc_ret, sortByKey, new_array, array_map; cbn.

Lemma strict_eq_ref_fresh {A} (a : array A) (v_ref : option addr) σ :
  (∀ l, v_ref = Some l → l < σ) → σ ≤ ref a → strict_eq_ref a v_ref = false.
Proof.
  intros Hwf Hge. unfold strict_eq_ref. destruct v_ref as [l|]; [|done].
  apply Nat.eqb_neq. specialize (Hwf l eq_refl). lia.
Qed.

Section children_facts.
Context (getRaw : jsval → Raw.t) (getInspectorStateValueType : jsval → string).

Local Abbreviation raw := (raw getRaw).
Local Abbreviation type := (type getInspectorStateValueType).
Local Abbreviation children := (children getRaw getInspectorStateValueType).
Local Abbreviation normalizedDisplayedChildren :=
  (normalizedDisplayedChildren getRaw getInspectorStateValueType).

Lemma children_array s σ items :
  Raw.value (raw s) = VArray items →
  children s σ = imap (array_child s (raw s)) (take (limit s) items).
Proof.
  intros Hv. unfold_children.
  fold (raw s). rewrite Hv. reflexivity.
Qed.

Lemma children_object s σ fields :
  Raw.value (raw s) = VObject fields →
  allocated_before s σ →
  children s σ =
    (if String.eqb (type s) "custom" then id else sort_nodes)
      (object_child s (raw s) fields <$> shown_keys s fields).
Proof.
  intros Hv Hwf. unfold_children.
  fold (raw s) (type s). rewrite Hv. cbn.
  unfold shown_keys, object_keys.
  set (l := take _ _).
  pose proof (imap_const (object_child s (raw s) fields) l) as Himap.
  unfold object_child, child_editable, const in Himap.
  destruct (String.eqb (type s) "custom"); run_alloc; fold l;
    rewrite Himap;
    (erewrite strict_eq_ref_fresh; [done|exact Hwf|simpl; lia]).
Qed.

Lemma children_scalar s σ :
  isArray (Raw.value (raw s)) = false →
  isObject (Raw.value (raw s)) = false →
  children s σ = [].
Proof.
  intros Ha Ho. unfold_children.
  fold (raw s). rewrite Ha, Ho. run_alloc.
  by destruct (strict_eq_ref _ _).
Qed.

(** The array a pass returns is one the pass allocated. *)
Lemma normalizedDisplayedChildren_fresh s σ :
  σ ≤ ref (normalizedDisplayedChildren s σ).1.
Proof.
  unfold_children.
  destruct (isArray _); [run_alloc; lia|].
  destruct (isObject _).
  - destruct (negb _); run_alloc; destruct (strict_eq_ref _ _); cbn; lia.
  - run_alloc. destruct (strict_eq_ref _ _); cbn; lia.
Qed.

End children_facts.

(** ** Normalisation *)

Section normalization.
Context (getRaw : jsval → Raw.t) (getInspectorStateValueType : jsval → string).

Local Abbreviation raw := (raw getRaw).
Local Abbreviation type := (type getInspectorStateValueType).
Local Abbreviation children := (children getRaw getInspectorStateValueType).
Local Abbreviation fieldsCount := (fieldsCount getRaw).
Local Abbreviation show_more_visible :=
  (show_more_visible getRaw getInspectorStateValueType).
Local Abbreviation normalizedDisplayedChildren :=
  (normalizedDisplayedChildren getRaw getInspectorStateValueType).

(** Every child is the object literal of the source, whatever the path. *)
Lemma children_shape s σ c :
  c ∈ children s σ →
  ∃ k v, c = child_node k v (Raw.inherit (raw s)) (child_editable s (raw s)).
Proof.
  unfold_children. fold (raw s) (type s).
  destruct (isArray (Raw.value (raw s))).
  - run_alloc. intros (i & y & -> & _)%elem_of_lookup_imap_1. eauto.
  - destruct (isObject (Raw.value (raw s))).
    + destruct (negb _); run_alloc; destruct (strict_eq_ref _ _); cbn;
        try (by intros ?%elem_of_nil).
      * intros Hc. eapply elem_of_Permutation_proper in Hc;
          [|symmetry; apply sort_by_perm].
        apply elem_of_lookup_imap_1 in Hc as (i & y & -> & _). eauto.
      * intros (i & y & -> & _)%elem_of_lookup_imap_1. eauto.
    + run_alloc. destruct (strict_eq_ref _ _); cbn; by intros ?%elem_of_nil.
Qed.

(** X2: what the spread of [inherit] brings replaces [key] and [value],
    which the literal writes before it; [editable] and [creating], written
    after it, are not replaced. *)
Lemma children_inherited s σ c p x :
  p ≠ "creating" → p ≠ "editable" →
  Raw.inherit (raw s) !! p = Some x →
  c ∈ children s σ → c !! p = Some x.
Proof.
  intros Hc He Hp (k & v & ->)%children_shape.
  by apply child_node_inherited.
Qed.

(** C5, amended: every child the normalisation produces has [editable]
    equal to the value of [props.data.editable && !isUneditableType].  For
    a parent whose [editable] is a boolean this is the conjunction of it
    with not ([customType] is "set"); for a parent whose [editable] is not
    truthy, as when it has none, it is that value itself.  Under a set the
    child of a parent with a truthy [editable] has [editable] false, and
    the [editable] of a child is never truthy. *)
Theorem children_editable s σ c :
  c ∈ children s σ →
  c !! "editable"
    = Some (js_and (editable (data s))
              (VBool (negb (bool_decide (Raw.customType (raw s) = Some "set")))))
  ∧ (∀ b, editable (data s) = VBool b →
       c !! "editable"
       = Some (VBool (b && negb (bool_decide (Raw.customType (raw s) = Some "set")))))
  ∧ (truthy (editable (data s)) = false →
     c !! "editable" = Some (editable (data s)))
  ∧ (Raw.customType (raw s) = Some "set" →
     (truthy (editable (data s)) = true → c !! "editable" = Some (VBool false))
     ∧ ∃ e, c !! "editable" = Some e ∧ truthy e = false).
Proof.
  intros (k & v & ->)%children_shape.
  rewrite child_node_editable. unfold child_editable, js_and.
  split; [done|]. split; [|split].
  - intros b ->. by destruct b.
  - by intros ->.
  - intros ->. rewrite bool_decide_eq_true_2 by done. simpl. split.
    + by intros ->.
    + destruct (truthy (editable (data s))) eqn:He; eauto.
Qed.

(** C6, amended: when [inherit] has no entry named key, the key of each
    child is the key of the parent, a dot, and the own property key of the
    child or the index of the element; the keys are those of the first
    [limit] entries, none left out; so the key of the parent is a strict
    prefix of the key of each child.  An entry named key in [inherit],
    spread after [key] in the literal, is the key of every child instead. *)
Theorem children_keys s σ :
  allocated_before s σ →
  (Raw.inherit (raw s) !! "key" = None →
   match Raw.value (raw s) with
   | VArray items =>
       (λ c : node, c !! "key") <$> children s σ
       = imap (λ i _, Some (VString (key (data s) ++ "." ++ index_text i)))
              (take (limit s) items)
   | VObject fields =>
       (λ c : node, c !! "key") <$> children s σ
       ≡ₚ (λ k, Some (VString (key (data s) ++ "." ++ k)))
            <$> take (limit s) (object_keys fields)
   | _ => children s σ = []
   end
   ∧ ∀ c, c ∈ children s σ →
       ∃ suffix, suffix ≠ "" ∧ c !! "key" = Some (VString (key (data s) ++ suffix)))
  ∧ (∀ x, Raw.inherit (raw s) !! "key" = Some x →
       ∀ c, c ∈ children s σ → c !! "key" = Some x).
Proof.
  intros Hwf. split; [intros Hk|].
  2:{ intros x Hx c (k & v & ->)%children_shape.
      by apply child_node_inherited. }
  split.
  - destruct (Raw.value (raw s)) as [| | | | |items|fields] eqn:Hv;
      try (by apply children_scalar; rewrite Hv).
    + rewrite (children_array _ _ _ _ items) by done.
      rewrite fmap_imap. apply imap_ext. intros i x _. simpl.
      unfold array_child. by apply child_node_key.
    + rewrite (children_object _ _ _ _ fields) by done.
      assert ((λ c : node, c !! "key") <$>
                (object_child s (raw s) fields <$> shown_keys s fields)
              = (λ k, Some (VString (key (data s) ++ "." ++ k)))
                  <$> take (limit s) (object_keys fields)) as <-.
      { rewrite <-list_fmap_compose. apply list_fmap_ext. intros i k _. simpl.
        unfold object_child. by apply child_node_key. }
      destruct (String.eqb (type s) "custom"); [done|].
      unfold sort_nodes. by rewrite sort_by_perm.
  - intros c Hc.
    destruct (Raw.value (raw s)) as [| | | | |items|fields] eqn:Hv;
      try (rewrite children_scalar in Hc by (by rewrite Hv);
           by apply elem_of_nil in Hc).
    + rewrite (children_array _ _ _ _ items) in Hc by done.
      apply elem_of_lookup_imap_1 in Hc as (i & y & -> & _).
      exists ("." ++ index_text i). split; [done|].
      unfold array_child. by apply child_node_key.
    + rewrite (children_object _ _ _ _ fields) in Hc by done.
      assert (c ∈ object_child s (raw s) fields <$> shown_keys s fields) as Hc'.
      { destruct (String.eqb (type s) "custom"); [done|].
        unfold sort_nodes in Hc. by rewrite sort_by_perm in Hc. }
      apply list_elem_of_fmap in Hc' as (k & -> & _).
      exists ("." ++ k). split; [done|].
      unfold object_child. by apply child_node_key.
Qed.

(** C3: the children of a plain (not custom-tagged) object come ordered
    lexically by key; those of a custom-tagged object keep the order in
    which the keys are enumerated; those of an array keep index order. *)
Theorem children_order s σ :
  allocated_before s σ →
  Raw.inherit (raw s) !! "key" = None →
  match Raw.value (raw s) with
  | VArray items =>
      children s σ = imap (array_child s (raw s)) (take (limit s) items)
  | VObject fields =>
      if String.eqb (type s) "custom" then
        children s σ = object_child s (raw s) fields <$> shown_keys s fields
      else
        StronglySorted (λ a b, String.le (node_key a) (node_key b)) (children s σ)
        ∧ ∃ ks, ks ≡ₚ shown_keys s fields
                ∧ StronglySorted String.le ks
                ∧ children s σ = object_child s (raw s) fields <$> ks
  | _ => children s σ = []
  end.
Proof.
  intros Hwf Hk.
  destruct (Raw.value (raw s)) as [| | | | |items|fields] eqn:Hv;
    try (by apply children_scalar; rewrite Hv).
  - by apply children_array.
  - rewrite (children_object _ _ _ _ fields) by done.
    destruct (String.eqb (type s) "custom"); [done|].
    split; [apply sort_nodes_sorted|].
    exists (sort_by String.ltb (shown_keys s fields)).
    split; [apply sort_by_perm|]. split; [apply sort_strings_sorted|].
    unfold sort_nodes. apply sort_by_fmap. intros a b.
    unfold key_lt, object_child. rewrite !node_key_child_node by done.
    by rewrite !string_ltb_app.
Qed.

Lemma length_children_array s σ items :
  Raw.value (raw s) = VArray items →
  length (children s σ) = limit s `min` length items.
Proof.
  intros Hv. rewrite (children_array _ _ _ _ items) by done.
  by rewrite length_imap, length_take.
Qed.

Lemma fieldsCount_array s items :
  Raw.value (raw s) = VArray items → fieldsCount s = length items.
Proof. intros Hv. unfold_fieldsCount. by rewrite Hv. Qed.

Lemma fieldsCount_object s fields :
  Raw.value (raw s) = VObject fields → fieldsCount s = length (object_keys fields).
Proof. intros Hv. unfold_fieldsCount. by rewrite Hv. Qed.

(** The number of children shown is the field count cut at the limit. *)
Lemma length_children s σ :
  allocated_before s σ →
  length (children s σ) = limit s `min` fieldsCount s.
Proof.
  intros Hwf.
  destruct (Raw.value (raw s)) as [| | | | |items|fields] eqn:Hv.
  1-5: rewrite children_scalar by (by rewrite Hv);
       unfold_fieldsCount; rewrite Hv; simpl; lia.
  - rewrite (length_children_array _ _ items), (fieldsCount_array _ items); done.
  - rewrite (children_object _ _ _ _ fields), (fieldsCount_object _ fields) by done.
    assert (length (object_child s (raw s) fields <$> shown_keys s fields)
            = limit s `min` length (object_keys fields)) as <-.
    { unfold shown_keys. by rewrite length_fmap, length_take. }
    destruct (String.eqb (type s) "custom"); [done|].
    apply length_sort_by.
Qed.

(** X3: in an expanded row the Show more button is there exactly when the
    field count exceeds the limit, and the number of children shown is the
    smaller of the limit and the field count. *)
Lemma show_more_visible_expanded s σ :
  allocated_before s σ → 0 < limit s → expanded_here s = true →
  show_more_visible s σ = bool_decide (limit s < fieldsCount s)
  ∧ length (children s σ) = limit s `min` fieldsCount s.
Proof.
  intros Hwf Hpos Hexp. split; [|by apply length_children].
  unfold_show_more_visible; unfold hasChildren.
  fold (children s σ) (fieldsCount s).
  rewrite Hexp, length_children by done.
  destruct (decide (limit s < fieldsCount s)) as [Hlt|Hge].
  - rewrite (bool_decide_eq_true_2 (limit s < fieldsCount s)) by done.
    rewrite bool_decide_eq_true_2 by lia. done.
  - rewrite (bool_decide_eq_false_2 (limit s < fieldsCount s)) by done.
    by rewrite !andb_false_r.
Qed.

(** C4: an array of 45 elements under the initial limit of 30 shows 30
    children while the field count is 45, so 15 remain and Show more is
    offered, which is the case exactly when the field count exceeds the
    limit; one Show more makes the limit 60 and all 45 are shown. *)
Theorem show_more_array_of_45 s σ σ' items :
  Raw.value (raw s) = VArray items →
  length items = 45 →
  limit s = STATE_FIELDS_LIMIT_SIZE →
  expanded_here s = true →
  length (children s σ) = 30
  ∧ fieldsCount s = 45
  ∧ fieldsCount s - length (children s σ) = 15
  ∧ show_more_visible s σ = bool_decide (limit s < fieldsCount s)
  ∧ show_more_visible s σ = true
  ∧ limit (show_more s) = 60
  ∧ children (show_more s) σ' = imap (array_child s (raw s)) items
  ∧ length (children (show_more s) σ') = 45
  ∧ show_more_visible (show_more s) σ'
    = bool_decide (limit (show_more s) < fieldsCount (show_more s))
  ∧ show_more_visible (show_more s) σ' = false.
Proof.
  intros Hv Hlen Hlim Hexp.
  assert (Raw.value (raw (show_more s)) = VArray items) as Hv' by done.
  pose proof (length_children_array s σ items Hv) as Hn.
  pose proof (length_children_array (show_more s) σ' items Hv') as Hn'.
  pose proof (fieldsCount_array s items Hv) as Hc.
  pose proof (fieldsCount_array (show_more s) items Hv') as Hc'.
  assert (limit (show_more s) = 60) as Hlim'.
  { unfold show_more. simpl. rewrite Hlim. done. }
  rewrite Hlim, Hlen in Hn. rewrite Hlim', Hlen in Hn'.
  unfold STATE_FIELDS_LIMIT_SIZE in *. simpl in Hn, Hn'.
  unfold_show_more_visible; unfold hasChildren.
  fold (children s σ) (children (show_more s) σ') (fieldsCount s)
    (fieldsCount (show_more s)).
  rewrite Hn, Hn', Hc, Hc', Hlen, Hlim, Hlim'.
  assert (expanded_here (show_more s) = true) as -> by done.
  rewrite Hexp.
  repeat split; try done.
  rewrite (children_array _ _ _ _ items) by done.
  rewrite Hlim', firstn_all2 by lia. done.
Qed.

(** C8: the last line gives an empty sequence whenever the child sequence
    is, by reference, the value of the node, and the child sequence as it is
    otherwise.  The sequence a pass hands on is an array the pass itself
    allocated: it is never the value of the node, nor any value that existed
    before, so a pass never hands the container of the node on as its own
    children. *)
Theorem children_never_the_parent_value s σ :
  (∀ dc τ, strict_eq_ref dc (value_ref (data s)) = true →
     elems (self_reference_guard s dc τ).1 = [])
  ∧ (∀ dc τ, strict_eq_ref dc (value_ref (data s)) = false →
       (self_reference_guard s dc τ).1 = dc)
  ∧ σ ≤ ref (normalizedDisplayedChildren s σ).1
  ∧ (∀ l, l < σ → strict_eq_ref (normalizedDisplayedChildren s σ).1 (Some l) = false)
  ∧ (allocated_before s σ →
     strict_eq_ref (normalizedDisplayedChildren s σ).1 (value_ref (data s)) = false).
Proof.
  pose proof (normalizedDisplayedChildren_fresh getRaw getInspectorStateValueType s σ)
    as Hfresh.
  split; [|split; [|split; [done|split]]].
  - intros dc τ Hsame. unfold self_reference_guard. by rewrite Hsame.
  - intros dc τ Hdiff. unfold self_reference_guard. by rewrite Hdiff.
  - intros l Hl. apply (strict_eq_ref_fresh _ _ σ); [|done].
    intros ? [= <-]. done.
  - intros Hwf. by apply (strict_eq_ref_fresh _ _ σ).
Qed.

End normalization.

(** ** The key label *)

Lemma split_dot_not_nil k : split_dot k ≠ [].
Proof.
  destruct k as [|c r]; simpl; [done|].
  destruct (Ascii.eqb c "."); [done|]. by destruct (split_dot r).
Qed.

Lemma split_dot_no_dot k : lastIndexOf_dot k = None → split_dot k = [k].
Proof.
  induction k as [|c r IH]; simpl; [done|].
  destruct (lastIndexOf_dot r); [done|].
  destruct (Ascii.eqb c "."); [done|]. intros _. by rewrite IH.
Qed.

Lemma split_dot_singleton k h : split_dot k = [h] → lastIndexOf_dot k = None.
Proof.
  revert h. induction k as [|c r IH]; intros h; simpl; [done|].
  destruct (Ascii.eqb c ".").
  - intros [= _ Hr]. by destruct (split_dot_not_nil r).
  - destruct (split_dot r) as [|h' t'] eqn:Hr; [by destruct (split_dot_not_nil r)|].
    intros [= _ ->]. by rewrite (IH h').
Qed.

Lemma last_split_dot k : last (split_dot k) = Some (after_last_dot k).
Proof.
  unfold after_last_dot.
  induction k as [|c r IH]; [done|]. cbn [split_dot lastIndexOf_dot].
  destruct (Ascii.eqb c ".") eqn:Hc.
  - rewrite last_cons, IH.
    destruct (lastIndexOf_dot r) as [i|]; simpl; [|done].
    by rewrite Nat.add_1_r.
  - destruct (split_dot r) as [|h t] eqn:Hr; [by destruct (split_dot_not_nil r)|].
    destruct (lastIndexOf_dot r) as [i|] eqn:Hi.
    + destruct t as [|h2 t].
      { apply split_dot_singleton in Hr. congruence. }
      assert (last (String c h :: h2 :: t) = last (h :: h2 :: t)) as -> by done.
      rewrite IH. simpl. by rewrite !Nat.add_1_r.
    + rewrite (split_dot_no_dot r Hi) in Hr. by injection Hr as <- <-.
Qed.

(** X4: the label shown for a node is the last segment of its path. *)
Lemma normalizedDisplayedKey_last_segment s :
  last (split_dot (key (data s))) = Some (normalizedDisplayedKey s).
Proof. apply last_split_dot. Qed.

(** Splitting a path that was put together with a dot gives the segments
    of both parts. *)
Lemma split_dot_app a b :
  split_dot (a ++ "." ++ b) = (split_dot a ++ split_dot b)%list.
Proof.
  change ("." ++ b) with (String "." b).
  induction a as [|c a IH]; [done|].
  change (String c a ++ String "." b) with (String c (a ++ String "." b)).
  cbn [split_dot]. rewrite IH.
  destruct (Ascii.eqb c "."); [done|].
  destruct (split_dot a) as [|h t] eqn:Ha; [|done].
  by destruct (split_dot_not_nil a).
Qed.

Lemma lastIndexOf_dot_cons c k :
  Ascii.eqb c "." = false → lastIndexOf_dot k = None →
  lastIndexOf_dot (String c k) = None.
Proof. intros Hc Hk. simpl. by rewrite Hk, Hc. Qed.

Lemma pretty_N_go_no_dot x k :
  lastIndexOf_dot k = None → lastIndexOf_dot (pretty_N_go x k) = None.
Proof.
  revert k. induction (N.lt_wf_0 x) as [x _ IH]; intros k Hk.
  assert (x = 0 ∨ 0 < x)%N as [->|?] by lia.
  - by rewrite pretty_N_go_0.
  - rewrite pretty_N_go_step by done. apply IH.
    { by apply N.div_lt. }
    apply lastIndexOf_dot_cons; [|done].
    unfold pretty_N_char. by repeat case_match.
Qed.

(** The text of an index has no dot. *)
Lemma index_text_no_dot i : lastIndexOf_dot (index_text i) = None.
Proof.
  unfold index_text, pretty, pretty_nat, pretty, pretty_N.
  case_decide; [done|]. by apply pretty_N_go_no_dot.
Qed.

Lemma after_last_dot_app a b : after_last_dot (a ++ "." ++ b) = after_last_dot b.
Proof.
  assert (Some (after_last_dot (a ++ "." ++ b)) = Some (after_last_dot b)) as H;
    [|by injection H].
  rewrite <-(last_split_dot (a ++ "." ++ b)), split_dot_app, last_app.
  by rewrite last_split_dot.
Qed.

(** ** Formatting *)

Section formatting.
Context (getInspectorStateValueType : jsval → string)
        (formatInspectorStateValue : jsval → string).

Local Abbreviation type := (type getInspectorStateValueType).
Local Abbreviation displayedValue := (displayedValue formatInspectorStateValue).
Local Abbreviation custom_without_type :=
  (custom_without_type getInspectorStateValueType).
Local Abbreviation normalizedDisplayedValue :=
  (normalizedDisplayedValue getInspectorStateValueType formatInspectorStateValue).

Local Abbreviation stateFormatClass := (stateFormatClass getInspectorStateValueType).

(** The class of the value cell names the type of the custom value, and
    string when the custom value has none; there is no class for a value
    that is not custom. *)
Lemma stateFormatClass_default s :
  (String.eqb (type s) "custom" = false → stateFormatClass s = Some "")
  ∧ (String.eqb (type s) "custom" = true →
     ∀ c, member "_custom" (value (data s)) = Some c →
       (nullish (opt_member "type" c) = true →
        stateFormatClass s = Some "string-custom-state")
       ∧ (∀ t, opt_member "type" c = VString t →
            stateFormatClass s = Some (t ++ "-custom-state"))).
Proof.
  unfold_stateFormatClass. fold (type s). split; [by intros ->|].
  intros -> c ->. simpl. unfold nullish_coalesce.
  split; [by intros ->|]. by intros t ->.
Qed.

Lemma includes_Reactive v :
  includes directlyDisplayedValueMap v = true ↔ v = VString "Reactive".
Proof.
  unfold includes, directlyDisplayedValueMap. split.
  - destruct v; try done. intros Hs%bool_decide_eq_true.
    apply list_elem_of_singleton in Hs. by subst.
  - intros ->. by apply bool_decide_eq_true_2, list_elem_of_singleton.
Qed.

Lemma custom_without_type_is_Some s :
  String.eqb (type s) "custom" = false ∨ nullish (value (data s)) = false →
  is_Some (custom_without_type s).
Proof.
  unfold_format. fold (type s). intros [->| Hn]; [by eexists|].
  destruct (String.eqb _ _); [|by eexists].
  unfold member. rewrite Hn. by eexists.
Qed.

(** X1: the abstract mark is read from [fields] of the value itself: a
    value with no [fields] of its own is never shown as an empty slot. *)
Lemma abstract_read_from_value_fields s m :
  extraDisplayedValue s ≠ VString "Reactive" →
  opt_member "fields" (value (data s)) = VUndefined →
  normalizedDisplayedValue s = Some m →
  m ≠ "".
Proof.
  intros He Hf. unfold normalizedDisplayedValue.
  destruct (includes _ _) eqn:Hi; [by apply includes_Reactive in Hi|].
  rewrite Hf. simpl.
  destruct (custom_without_type s) as [u|]; simpl; [|done].
  destruct (truthy _); intros [= <-]; discriminate.
Qed.

Lemma custom_without_type_lacks s :
  String.eqb (type s) "custom" = false ∨ nullish (value (data s)) = false →
  custom_without_type s
  = Some (lacks_explicit_type (type s) (value (data s))).
Proof.
  unfold_format. fold (type s). unfold lacks_explicit_type, member.
  intros [->| Hn]; [done|]. rewrite Hn.
  by destruct (String.eqb _ _).
Qed.

(** The markup of the third case begins with a tag. *)
Lemma state_span_not_sentinel ty body rest :
  state_span ty body ++ rest ≠ "Reactive".
Proof. discriminate. Qed.

(** C7, amended: the value markup by priority.  First, the type name in
    force is that of the custom wrapper of the node when it is truthy and
    that of the node otherwise; when it is the sentinel Reactive, the
    sentinel is shown alone, and a truthy name of the wrapper that is not
    the sentinel rules the sentinel out, whatever the node names.
    Otherwise, when [fields] of the value itself is marked abstract, the
    value slot is empty whatever the value is.  Otherwise the text is put
    in a span tagged with the display type: quoted when the value is custom
    and has no type of its own, a pair of quotes when the text is empty,
    the text as it is in every other case, and followed by the type name in
    parentheses when there is one. *)
Theorem normalizedDisplayedValue_priority s :
  (opt_member "stateTypeName" (_custom (data s)) = VString "Reactive" →
   normalizedDisplayedValue s = Some "Reactive")
  ∧ (truthy (opt_member "stateTypeName" (_custom (data s))) = false →
     stateTypeName (data s) = VString "Reactive" →
     normalizedDisplayedValue s = Some "Reactive")
  ∧ (truthy (opt_member "stateTypeName" (_custom (data s))) = true →
     opt_member "stateTypeName" (_custom (data s)) ≠ VString "Reactive" →
     normalizedDisplayedValue s ≠ Some "Reactive")
  ∧ (extraDisplayedValue s = VString "Reactive" →
     normalizedDisplayedValue s = Some "Reactive")
  ∧ (extraDisplayedValue s ≠ VString "Reactive" →
     abstract_fields s = true →
     normalizedDisplayedValue s = Some "")
  ∧ (extraDisplayedValue s ≠ VString "Reactive" →
     abstract_fields s = false →
     (String.eqb (type s) "custom" = false ∨ nullish (value (data s)) = false) →
     ∃ body,
       (lacks_explicit_type (type s) (value (data s)) = true →
        body = DQ ++ displayedValue s ++ DQ)
       ∧ (displayedValue s = "" → body = DQ ++ DQ)
       ∧ (lacks_explicit_type (type s) (value (data s)) = false →
          displayedValue s ≠ "" → body = displayedValue s)
       ∧ (truthy (extraDisplayedValue s) = true →
          normalizedDisplayedValue s
          = Some (state_span (type s) body ++ annotation (extraDisplayedValue s)))
       ∧ (truthy (extraDisplayedValue s) = false →
          normalizedDisplayedValue s = Some (state_span (type s) body))).
Proof.
  assert (extraDisplayedValue s = VString "Reactive" →
          normalizedDisplayedValue s = Some "Reactive") as Hsentinel.
  { intros He. unfold_format. fold (extraDisplayedValue s). rewrite He.
    by rewrite (proj2 (includes_Reactive _)). }
  split; [|split; [|split; [|split; [exact Hsentinel|split]]]].
  - intros Hw. apply Hsentinel. unfold extraDisplayedValue, js_or.
    by rewrite Hw.
  - intros Hw Hn. apply Hsentinel. unfold extraDisplayedValue, js_or.
    by rewrite Hw.
  - intros Hw Hne.
    assert (extraDisplayedValue s ≠ VString "Reactive") as He.
    { unfold extraDisplayedValue, js_or. by rewrite Hw. }
    unfold normalizedDisplayedValue.
    destruct (includes _ _) eqn:Hi; [by apply includes_Reactive in Hi|].
    destruct (truthy (opt_member "abstract" _)); [discriminate|].
    fold (custom_without_type s).
    destruct (custom_without_type s) as [u|]; simpl; [|discriminate].
    destruct (truthy (extraDisplayedValue s)); intros [= Heq];
      revert Heq; apply state_span_not_sentinel || discriminate.
  - intros He Ha. unfold normalizedDisplayedValue.
    destruct (includes _ _) eqn:Hi; [by apply includes_Reactive in Hi|].
    fold (abstract_fields s). by rewrite Ha.
  - intros He Ha Hok.
    pose proof (custom_without_type_lacks s Hok) as Hu.
    set (untyped := lacks_explicit_type (type s) (value (data s))) in *.
    exists (if untyped then DQ ++ displayedValue s ++ DQ
            else if String.eqb (displayedValue s) "" then DQ ++ DQ
                 else displayedValue s).
    split; [by intros ->|]. split.
    { intros ->. by destruct untyped. }
    split.
    { intros -> Hne. by apply String.eqb_neq in Hne as ->. }
    unfold normalizedDisplayedValue.
    destruct (includes _ _) eqn:Hi; [by apply includes_Reactive in Hi|].
    fold (abstract_fields s) (custom_without_type s). rewrite Ha, Hu. simpl.
    split; intros ->; reflexivity.
Qed.

(** X5: what the value cell shows, case by case.  The sentinel stands
    alone exactly when the type name in force is the sentinel; the slot is
    empty exactly when it is not and the fields of the value are marked
    abstract; the markup and the class fail with a TypeError exactly when
    the value is classified custom and is null or undefined (for the markup,
    when neither of the first two cases applies). *)
Theorem normalizedDisplayedValue_outcomes s :
  (normalizedDisplayedValue s = Some "Reactive"
   ↔ extraDisplayedValue s = VString "Reactive")
  ∧ (normalizedDisplayedValue s = Some ""
     ↔ extraDisplayedValue s ≠ VString "Reactive" ∧ abstract_fields s = true)
  ∧ (normalizedDisplayedValue s = None
     ↔ extraDisplayedValue s ≠ VString "Reactive" ∧ abstract_fields s = false
       ∧ String.eqb (type s) "custom" = true ∧ nullish (value (data s)) = true)
  ∧ (stateFormatClass s = None
     ↔ String.eqb (type s) "custom" = true ∧ nullish (value (data s)) = true).
Proof.
  assert (custom_without_type s = None
          ↔ String.eqb (type s) "custom" = true ∧ nullish (value (data s)) = true)
    as Hcwt.
  { unfold_format. fold (type s). unfold member.
    destruct (String.eqb (type s) "custom"), (nullish (value (data s)));
      simpl; intuition congruence. }
  assert (stateFormatClass s = None
          ↔ String.eqb (type s) "custom" = true ∧ nullish (value (data s)) = true)
    as Hcls.
  { unfold_stateFormatClass. fold (type s). unfold member.
    destruct (String.eqb (type s) "custom"), (nullish (value (data s)));
      simpl; intuition congruence. }
  unfold normalizedDisplayedValue. fold (abstract_fields s).
  destruct (includes _ _) eqn:Hi.
  { apply includes_Reactive in Hi as He. rewrite He. simpl.
    repeat split; try done; intuition congruence. }
  assert (extraDisplayedValue s ≠ VString "Reactive") as He.
  { intros He%includes_Reactive. congruence. }
  destruct (abstract_fields s).
  { repeat split; try done; intuition congruence. }
  destruct (custom_without_type s) as [u|] eqn:Hu; simpl.
  - assert (¬ (String.eqb (type s) "custom" = true
               ∧ nullish (value (data s)) = true)) as Hn.
    { intros Hc. apply Hcwt in Hc. congruence. }
    destruct (truthy (extraDisplayedValue s));
      (split; [split; [discriminate|done]|]);
      (split; [split; [discriminate|intuition congruence]|]);
      (split; [split; [discriminate|intuition congruence]|done]).
  - pose proof (proj1 Hcwt eq_refl) as Hc.
    repeat split; try done; intuition congruence.
Qed.

End formatting.

(** ** Editing in place and drafting *)

Section editing.
Context (getRaw : jsval → Raw.t)
        (toEdit : jsval → option string → string)
        (toSubmit : string → option string → option jsval).

Local Abbreviation raw := (raw getRaw).
Local Abbreviation on_submit := (on_submit getRaw toEdit toSubmit).
Local Abbreviation on_toggleEditing := (on_toggleEditing getRaw toEdit).
Local Abbreviation submit := (submit getRaw toSubmit).
Local Abbreviation submitDrafting := (submitDrafting toSubmit).

(** Leaving the editing state runs the watcher with [false]. *)
Lemma flush_watch_leave s :
  editing s = false →
  flush_watch getRaw toEdit true s = set_editingText "" s.
Proof.
  intros He. unfold flush_watch, watch_editing. rewrite He.
  by rewrite bool_decide_eq_false_2.
Qed.

(** Entering the editing state runs the watcher with [true]. *)
Lemma flush_watch_enter s :
  editing s = true →
  flush_watch getRaw toEdit false s
  = set_editingText (toEdit (Raw.value (raw s)) (Raw.customType (raw s))) s.
Proof.
  intros He. unfold flush_watch, watch_editing. rewrite He.
  by rewrite bool_decide_eq_false_2.
Qed.

(** X6: entering the editing state fills the text with [toEdit] of the raw
    value under its [customType]; cancelling empties the text; neither hands
    a payload over. *)
Lemma toggle_edit_session s :
  (on_toggleEditing s).2 = []
  ∧ (editing s = false →
     editing (on_toggleEditing s).1 = true
     ∧ editingText (on_toggleEditing s).1
       = toEdit (Raw.value (raw s)) (Raw.customType (raw s)))
  ∧ (editing s = true →
     editing (on_toggleEditing s).1 = false
     ∧ editingText (on_toggleEditing s).1 = "").
Proof.
  split; [done|]. unfold_on_toggleEditing; simpl.
  split; intros He; rewrite He.
  - rewrite flush_watch_enter by (by simpl; rewrite He). simpl. by rewrite He.
  - rewrite flush_watch_leave by (by simpl; rewrite He). simpl. by rewrite He.
Qed.

(** The watcher does not run when [editing] is what it was. *)
Lemma flush_watch_same s : flush_watch getRaw toEdit (editing s) s = s.
Proof. unfold flush_watch. by rewrite bool_decide_eq_true_2. Qed.

(** The submit event when the text decodes, and when it does not. *)
Lemma on_submit_decodes s v :
  editing s = true →
  toSubmit (editingText s) (Raw.customType (raw s)) = Some v →
  on_submit s
  = Returned (set_editingText "" (set_editing false s))
      [Payload.mk (split_dot (key (data s))) (ctx_inspectorId s)
         (stateType (data s)) (nodeId s)
         (EditorState.mk None (editingType s) v)].
Proof.
  intros He Hv. unfold_submit. fold (raw s). rewrite Hv. cbn [after_handler].
  rewrite He, flush_watch_leave by (by simpl; rewrite He).
  unfold toggleEditing. by rewrite He.
Qed.

Lemma on_submit_throws s :
  toSubmit (editingText s) (Raw.customType (raw s)) = None →
  on_submit s = Thrown s [].
Proof.
  intros Hv. unfold_submit. fold (raw s). rewrite Hv. cbn [after_handler].
  by rewrite flush_watch_same.
Qed.


(** X17: an edit session leaves no trace.  Opening the editor on a field
    that is being viewed, typing a text and submitting hands over, when
    the text decodes, the one payload with the decoded text, and the viewer
    is back in the state it started from; when the text does not decode,
    nothing is handed over and the editor stays open with the text.
    Cancelling hands nothing over and restores the state the session
    started from, whatever the text is. *)
Theorem edit_session_round_trip s text :
  editing s = false →
  editingText s = "" →
  (∀ v, toSubmit text (Raw.customType (raw s)) = Some v →
     on_submit (set_editingText text (on_toggleEditing s).1)
     = Returned s
         [Payload.mk (split_dot (key (data s))) (ctx_inspectorId s)
            (stateType (data s)) (nodeId s)
            (EditorState.mk None (editingType s) v)])
  ∧ (toSubmit text (Raw.customType (raw s)) = None →
     on_submit (set_editingText text (on_toggleEditing s).1)
     = Thrown (set_editingText text (set_editing true s)) [])
  ∧ on_toggleEditing (set_editingText text (on_toggleEditing s).1) = (s, []).
Proof.
  destruct s as [d dp ix lim ex ci cd et ed etx nid dr]. simpl.
  intros -> ->. split; [|split].
  - intros v Hv. rewrite (on_submit_decodes _ v); [done|done|exact Hv].
  - intros Hv. by rewrite on_submit_throws.
  - reflexivity.
Qed.

(** X7: adding a property expands the row and begins the draft of
    [addNewPropApi] on the raw value. *)
Lemma addNewProp_expands (addNewPropApi : string → jsval → Drafting.t) ty s :
  expanded_here (addNewProp getRaw addNewPropApi ty s) = true
  ∧ draftingNewProp (addNewProp getRaw addNewPropApi ty s)
    = addNewPropApi ty (Raw.value (raw s))
  ∧ data (addNewProp getRaw addNewPropApi ty s) = data s.
Proof.
  unfold addNewProp, expanded_here.
  destruct (bool_decide (_ ∈ expanded s)) eqn:He; simpl.
  - split; [|done]. by rewrite He.
  - split; [|done]. apply bool_decide_eq_true_2.
    rewrite He. simpl. apply elem_of_app. right. by apply list_elem_of_here.
Qed.

(** [submitDrafting] when the draft value decodes, and when it does
    not. *)
Lemma submitDrafting_decodes s v :
  toSubmit (Drafting.value (draftingNewProp s)) None = Some v →
  submitDrafting s
  = Returned (resetDrafting s)
      [Payload.mk
         (split_dot (key (data s)) ++ [Drafting.key (draftingNewProp s)])%list
         (ctx_inspectorId s) (stateType (data s)) (nodeId s)
         (EditorState.mk (Some (Drafting.key (draftingNewProp s)))
            (typeof v) v)].
Proof. intros Hv. unfold_submitDrafting. by rewrite Hv. Qed.

Lemma submitDrafting_throws s :
  toSubmit (Drafting.value (draftingNewProp s)) None = None →
  submitDrafting s = Thrown s [].
Proof. intros Hv. unfold_submitDrafting. by rewrite Hv. Qed.

Lemma decoded_submitDrafting s :
  decoded (submitDrafting s) = toSubmit (Drafting.value (draftingNewProp s)) None.
Proof.
  destruct (toSubmit (Drafting.value (draftingNewProp s)) None) as [v|] eqn:Hv.
  - by rewrite (submitDrafting_decodes s v Hv).
  - by rewrite (submitDrafting_throws s Hv).
Qed.

Lemma decoded_submit s :
  decoded (submit s) = toSubmit (editingText s) (Raw.customType (raw s)).
Proof.
  unfold_submit. fold (raw s).
  by destruct (toSubmit (editingText s) (Raw.customType (raw s))).
Qed.


(** C10: a draft is decoded by [toSubmit] on the draft text alone, with no
    [customType]; an edit in place passes the [customType] of the raw
    value.  For one and the same text, the draft and the edit hand the same
    value over exactly when decoding it without a [customType] and under
    the [customType] of the node agree; and what a draft hands over is the
    same under every parent. *)
Theorem draft_decoded_without_customType s t :
  Drafting.value (draftingNewProp t) = editingText s →
  decoded (submitDrafting t) = toSubmit (editingText s) None
  ∧ decoded (submit s) = toSubmit (editingText s) (Raw.customType (raw s))
  ∧ (decoded (submitDrafting t) = decoded (submit s)
     ↔ toSubmit (editingText s) None
       = toSubmit (editingText s) (Raw.customType (raw s)))
  ∧ (∀ u, Drafting.value (draftingNewProp u) = Drafting.value (draftingNewProp t) →
       decoded (submitDrafting u) = decoded (submitDrafting t)
       ∧ thrown (submitDrafting u) = thrown (submitDrafting t)).
Proof.
  intros Ht. rewrite decoded_submitDrafting, decoded_submit, Ht.
  split; [done|]. split; [done|]. split; [done|].
  intros u Hu. rewrite decoded_submitDrafting, Hu. split; [done|].
  unfold_submitDrafting. rewrite Hu, Ht.
  by destruct (toSubmit (editingText s) None).
Qed.

End editing.

(** ** A render pass depends on the snapshot and the limit alone *)

Section determinism.
Context (getRaw : jsval → Raw.t) (getInspectorStateValueType : jsval → string)
        (formatInspectorStateValue : jsval → string)
        (toEdit : jsval → option string → string)
        (toSubmit : string → option string → option jsval)
        (addNewPropApi : string → jsval → Drafting.t).

Local Abbreviation children := (children getRaw getInspectorStateValueType).
Local Abbreviation fieldsCount := (fieldsCount getRaw).
Local Abbreviation normalizedDisplayedValue :=
  (normalizedDisplayedValue getInspectorStateValueType formatInspectorStateValue).
Local Abbreviation normalizedDisplayedChildren :=
  (normalizedDisplayedChildren getRaw getInspectorStateValueType).
Local Abbreviation handle := (handle getRaw toEdit toSubmit addNewPropApi).
Local Abbreviation run_events := (run_events getRaw toEdit toSubmit addNewPropApi).

Lemma children_ext s1 s2 σ1 σ2 :
  data s1 = data s2 → limit s1 = limit s2 →
  allocated_before s1 σ1 → allocated_before s2 σ2 →
  children s1 σ1 = children s2 σ2.
Proof.
  intros Hd Hl Hwf1 Hwf2.
  assert (raw getRaw s1 = raw getRaw s2) as Hr by (unfold_computed; by rewrite Hd).
  assert (type getInspectorStateValueType s1 = type getInspectorStateValueType s2)
    as Ht by (unfold_computed; by rewrite Hd).
  destruct (Raw.value (raw getRaw s1)) as [| | | | |items|fields] eqn:Hv.
  1-5: rewrite !children_scalar; rewrite <-?Hr, ?Hv; done.
  - rewrite (children_array _ _ s1 _ items), (children_array _ _ s2 _ items)
      by (rewrite <-?Hr; done).
    unfold array_child, child_editable. by rewrite Hd, Hl, Hr.
  - rewrite (children_object _ _ s1 _ fields), (children_object _ _ s2 _ fields)
      by (rewrite <-?Hr; done).
    unfold object_child, child_editable, shown_keys. by rewrite Hd, Hl, Hr, Ht.
Qed.

(** The array a pass returns is below the allocator state the pass
    leaves: the next pass cannot return the same array. *)
Lemma normalizedDisplayedChildren_below s σ :
  ref (normalizedDisplayedChildren s σ).1 < (normalizedDisplayedChildren s σ).2.
Proof.
  unfold_children.
  destruct (isArray _); [run_alloc; lia|].
  destruct (isObject _).
  - destruct (negb _); run_alloc; destruct (strict_eq_ref _ _); cbn; lia.
  - run_alloc. destruct (strict_eq_ref _ _); cbn; lia.
Qed.

(** No handler writes [props.data]. *)
Lemma handle_data e s : data (state_of (handle e s)) = data s.
Proof.
  destruct e; unfold_handle; simpl; try done.
  - by destruct (bool_decide _), (negb (editing s)).
  - by destruct (bool_decide _), (negb (editing s)).
  - destruct (toSubmit _ _); simpl; [|by destruct (bool_decide _), (editing s)].
    by destruct (bool_decide _), (negb (editing s)).
  - by destruct (negb _).
  - by destruct (toSubmit _ _).
Qed.

Lemma run_events_data es s : data (run_events es s).1 = data s.
Proof.
  revert s. induction es as [|e es IH]; intros s; [done|].
  step_run_events.
  pose proof (IH (state_of (handle e s))) as IH'.
  destruct (run_events es (state_of (handle e s))) as [s' out]; simpl in *.
  by rewrite IH', handle_data.
Qed.


End determinism.

(** ** Sorting a longer list *)

Section sort_by_more.
Context {A : Type} (lt : A → A → bool).
Hypothesis lt_asym : ∀ a b, lt a b = true → lt b a = false.
Hypothesis not_lt_trans :
  ∀ a b c, lt a b = false → lt b c = false → lt a c = false.

Let after (a b : A) : Prop := lt b a = false.

Lemma sort_by_after l : StronglySorted after (sort_by lt l).
Proof.
  apply Sorted_StronglySorted.
  { intros a b c Hab Hbc. unfold after in *. by eapply not_lt_trans. }
  apply sort_by_sorted; unfold after; auto.
Qed.

Lemma insert_by_sublist x l1 l2 :
  l1 `sublist_of` l2 → StronglySorted after l2 →
  insert_by lt x l1 `sublist_of` insert_by lt x l2.
Proof.
  induction 1 as [|y l1 l2 Hsub IH|y l1 l2 Hsub IH]; intros Hs; simpl.
  - done.
  - apply StronglySorted_inv in Hs as [Hs _].
    destruct (lt y x); [by apply sublist_skip, IH|by do 2 apply sublist_skip].
  - apply StronglySorted_inv in Hs as [Hs Hy].
    destruct (lt y x) eqn:Hyx; [by apply sublist_cons, IH|].
    assert (insert_by lt x l1 = x :: l1) as ->.
    { destruct l1 as [|z l1]; [done|]. simpl.
      assert (lt z x = false) as ->; [|done].
      apply (not_lt_trans z y x); [|done].
      rewrite Forall_forall in Hy. apply Hy.
      eapply elem_of_sublist; [|exact Hsub]. by apply list_elem_of_here. }
    by apply sublist_skip, sublist_cons.
Qed.

(** The sorted shorter list keeps its order within the sorted longer
    one. *)
Lemma sort_by_sublist_app l1 l2 :
  sort_by lt l1 `sublist_of` sort_by lt (l1 ++ l2).
Proof.
  induction l1 as [|x l1 IH]; simpl; [apply sublist_nil_l|].
  apply insert_by_sublist; [exact IH|apply sort_by_after].
Qed.
End sort_by_more.

Lemma key_lt_asym a b : key_lt a b = true → key_lt b a = false.
Proof.
  unfold key_lt, String.ltb. rewrite (String.compare_antisym (node_key a)).
  by destruct (String.compare (node_key b) (node_key a)).
Qed.

Lemma key_lt_not_trans a b c :
  key_lt a b = false → key_lt b c = false → key_lt a c = false.
Proof.
  unfold key_lt. intros Hab%string_not_ltb_leb Hbc%string_not_ltb_leb.
  assert (String.le (node_key c) (node_key a)) as Hca by (by etrans).
  unfold String.le, String.leb, String.ltb in *.
  rewrite (String.compare_antisym (node_key a)).
  by destruct (String.compare (node_key c) (node_key a)).
Qed.

(** ** What the children carry *)

Lemma own_property_lookup fields k v :
  NoDup (object_keys fields) → (k, v) ∈ fields → own_property k fields = v.
Proof.
  unfold object_keys.
  induction fields as [|[k' v'] rest IH]; simpl; [by intros _ ?%elem_of_nil|].
  intros [Hnotin Hnd]%NoDup_cons [[= -> ->]|Hin]%elem_of_cons.
  - by rewrite String.eqb_refl.
  - destruct (String.eqb_spec k k') as [->|Hne]; [|by apply IH].
    destruct Hnotin. apply list_elem_of_fmap. by exists (k', v).
Qed.

Lemma NoDup_imap_index {A B} (f : nat → B) (l : list A) :
  (∀ i j, f i = f j → i = j) → NoDup (imap (λ i _, f i) l).
Proof.
  revert f. induction l as [|x l IH]; intros f Hf; simpl; [constructor|].
  constructor.
  - intros (i & y & Heq & _)%elem_of_lookup_imap_1. simpl in Heq.
    by apply Hf in Heq.
  - apply (IH (f ∘ S)). intros i j Hij. simpl in Hij.
    apply Hf in Hij. lia.
Qed.

Lemma child_key_inj p : Inj (=) (=) (λ k, Some (VString (p ++ "." ++ k))).
Proof.
  intros a b [= Hab]. apply (inj (String.append p)) in Hab.
  by injection Hab.
Qed.

Section carried.
Context (getRaw : jsval → Raw.t) (getInspectorStateValueType : jsval → string).

Local Abbreviation raw := (raw getRaw).
Local Abbreviation type := (type getInspectorStateValueType).
Local Abbreviation children := (children getRaw getInspectorStateValueType).
Local Abbreviation fieldsCount := (fieldsCount getRaw).
Local Abbreviation hasChildren := (hasChildren getRaw getInspectorStateValueType).
Local Abbreviation show_more_visible :=
  (show_more_visible getRaw getInspectorStateValueType).

(** X11: the children carry the data of the raw value and nothing else of
    it: for an array, the values of the children are the first [limit]
    elements in order; for an object with distinct keys, the children are,
    key by key, the first [limit] bindings. *)
Theorem children_bindings s σ :
  allocated_before s σ →
  Raw.inherit (raw s) !! "key" = None →
  Raw.inherit (raw s) !! "value" = None →
  match Raw.value (raw s) with
  | VArray items =>
      (λ c : node, c !! "value") <$> children s σ = Some <$> take (limit s) items
  | VObject fields =>
      NoDup (object_keys fields) →
      (λ c : node, (c !! "key", c !! "value")) <$> children s σ
      ≡ₚ (λ kv, (Some (VString (key (data s) ++ "." ++ kv.1)), Some kv.2))
           <$> take (limit s) fields
  | _ => children s σ = []
  end.
Proof.
  intros Hwf Hk Hv.
  destruct (Raw.value (raw s)) as [| | | | |items|fields] eqn:Hr;
    try (by apply children_scalar; rewrite Hr).
  - rewrite (children_array _ _ _ _ items) by done.
    rewrite fmap_imap.
    rewrite <-(imap_const Some (take (limit s) items)).
    apply imap_ext. intros i x _. simpl.
    unfold array_child. by apply child_node_value.
  - intros Hnd. rewrite (children_object _ _ _ _ fields) by done.
    assert ((λ c : node, (c !! "key", c !! "value")) <$>
              (object_child s (raw s) fields <$> shown_keys s fields)
            = (λ kv, (Some (VString (key (data s) ++ "." ++ kv.1)), Some kv.2))
                <$> take (limit s) fields) as <-.
    { unfold shown_keys, object_keys. rewrite <-fmap_take, <-!list_fmap_compose.
      apply list_fmap_ext. intros i [k v] Hi. simpl.
      unfold object_child.
      rewrite child_node_key, child_node_value by done.
      rewrite (own_property_lookup fields k v); [done..|].
      eapply subseteq_take, list_elem_of_lookup_2, Hi. }
    destruct (String.eqb (type s) "custom"); [done|].
    unfold sort_nodes. by rewrite sort_by_perm.
Qed.

(** X12: every child has the properties key, value, editable and creating
    and those of [inherit], and no other; [creating] is false whatever
    [inherit] holds. *)
Theorem children_properties s σ c :
  c ∈ children s σ →
  dom c = {["key"; "value"; "editable"; "creating"]} ∪ dom (Raw.inherit (raw s))
  ∧ c !! "creating" = Some (VBool false).
Proof.
  intros (k & v & ->)%children_shape. split; [|apply child_node_creating].
  unfold child_node.
  rewrite !dom_insert_L, dom_union_L, dom_insert_L, dom_singleton_L.
  apply set_eq. intros p. set_unfold. tauto.
Qed.

(** X13: no two children of a node have the same key, for an array and
    for an object whose own keys are distinct. *)
Theorem children_keys_distinct s σ :
  allocated_before s σ →
  Raw.inherit (raw s) !! "key" = None →
  (∀ fields, Raw.value (raw s) = VObject fields → NoDup (object_keys fields)) →
  NoDup ((λ c : node, c !! "key") <$> children s σ).
Proof.
  intros Hwf Hk Hnd.
  destruct (Raw.value (raw s)) as [| | | | |items|fields] eqn:Hr;
    try (rewrite children_scalar by (by rewrite Hr); constructor).
  - rewrite (children_array _ _ _ _ items) by done.
    rewrite fmap_imap.
    rewrite (imap_ext _ (λ i _, Some (VString (key (data s) ++ "." ++ index_text i)))).
    2:{ intros i x _. simpl. unfold array_child. by apply child_node_key. }
    apply NoDup_imap_index. intros i j Hij.
    apply (child_key_inj (key (data s))) in Hij. by apply (inj pretty) in Hij.
  - rewrite (children_object _ _ _ _ fields) by done.
    assert (NoDup ((λ c : node, c !! "key") <$>
                     (object_child s (raw s) fields <$> shown_keys s fields))) as Hd.
    { rewrite <-list_fmap_compose.
      rewrite (list_fmap_ext _ (λ k, Some (VString (key (data s) ++ "." ++ k)))).
      2:{ intros i k _. simpl. unfold object_child. by apply child_node_key. }
      apply (NoDup_fmap_2 (λ k, Some (VString (key (data s) ++ "." ++ k)))
               (Inj0 := child_key_inj (key (data s)))).
      eapply sublist_NoDup; [by apply Hnd|apply sublist_take]. }
    destruct (String.eqb (type s) "custom"); [done|].
    unfold sort_nodes. by rewrite sort_by_perm.
Qed.

(** X14: with a positive limit a node has children, and so the toggle to
    expand it, exactly when its raw value is an array or an object that is
    not empty; the children never outnumber the limit or the fields. *)
Theorem hasChildren_iff_fields s σ :
  allocated_before s σ →
  0 < limit s →
  (hasChildren s σ = true ↔ 0 < fieldsCount s)
  ∧ length (children s σ) ≤ limit s
  ∧ length (children s σ) ≤ fieldsCount s
  ∧ (isArray (Raw.value (raw s)) = false → isObject (Raw.value (raw s)) = false →
     hasChildren s σ = false).
Proof.
  intros Hwf Hpos.
  pose proof (length_children getRaw getInspectorStateValueType s σ Hwf) as Hlen.
  unfold hasChildren. fold (children s σ).
  split; [|split; [lia|split; [lia|]]].
  - rewrite bool_decide_eq_true. fold (fieldsCount s) in Hlen. lia.
  - intros Ha Ho. rewrite children_scalar by done.
    apply bool_decide_eq_false_2. simpl. lia.
Qed.

Lemma data_iter_show_more n s : data (Nat.iter n show_more s) = data s.
Proof. induction n as [|n IH]; [done|]. simpl. exact IH. Qed.

Lemma limit_iter_show_more n s :
  limit (Nat.iter n show_more s) = limit s + n * STATE_FIELDS_LIMIT_SIZE.
Proof.
  induction n as [|n IH]; [simpl; lia|].
  change (limit (Nat.iter (S n) show_more s))
    with (limit (Nat.iter n show_more s) + STATE_FIELDS_LIMIT_SIZE).
  rewrite IH. lia.
Qed.

Lemma fieldsCount_data s t : data s = data t → fieldsCount s = fieldsCount t.
Proof. intros Hd. unfold_fieldsCount. unfold_computed. by rewrite Hd. Qed.

(** X15: Show more only adds rows and never reorders the ones shown.  The
    children shown before a click are shown after it in the same relative
    order; for an array and for a custom object they stay where they were,
    the new rows coming after them. *)
Theorem show_more_only_adds s σ σ' :
  allocated_before s σ →
  allocated_before s σ' →
  children s σ `sublist_of` children (show_more s) σ'
  ∧ (isArray (Raw.value (raw s)) = true ∨ String.eqb (type s) "custom" = true →
     children s σ `prefix_of` children (show_more s) σ').
Proof.
  intros Hwf Hwf'.
  assert (allocated_before (show_more s) σ') as Hwf'' by done.
  assert (∀ A (l : list A), ∃ k,
            take (limit (show_more s)) l = (take (limit s) l ++ k)%list) as Htake.
  { intros A l. simpl. rewrite <-take_take_drop. by eexists. }
  destruct (Raw.value (raw s)) as [| | | | |items|fields] eqn:Hr.
  1-5: rewrite children_scalar by (by rewrite Hr);
       split; [apply sublist_nil_l|intros _; apply prefix_nil].
  - assert (Raw.value (raw (show_more s)) = VArray items) as Hr' by done.
    rewrite (children_array _ _ s σ items Hr),
      (children_array _ _ (show_more s) σ' items Hr').
    destruct (Htake _ items) as [k ->]. rewrite imap_app.
    split; [by apply sublist_inserts_r|by eexists].
  - assert (Raw.value (raw (show_more s)) = VObject fields) as Hr' by done.
    rewrite (children_object _ _ s σ fields Hr Hwf),
      (children_object _ _ (show_more s) σ' fields Hr' Hwf'').
    unfold shown_keys. destruct (Htake _ (object_keys fields)) as [k ->].
    rewrite fmap_app.
    change (type (show_more s)) with (type s).
    destruct (String.eqb (type s) "custom") eqn:Ht.
    + split; [by apply sublist_inserts_r|by eexists].
    + split; [|by intros [?|?]].
      apply sort_by_sublist_app; [apply key_lt_asym|apply key_lt_not_trans].
Qed.

(** X16: Show more comes to an end.  After as many clicks as it takes for
    the limit to reach the field count, every field has its row and the
    button is gone. *)
Theorem show_more_reaches_all s σ n :
  allocated_before s σ →
  fieldsCount s ≤ limit s + n * STATE_FIELDS_LIMIT_SIZE →
  limit (Nat.iter n show_more s) = limit s + n * STATE_FIELDS_LIMIT_SIZE
  ∧ length (children (Nat.iter n show_more s) σ) = fieldsCount s
  ∧ show_more_visible (Nat.iter n show_more s) σ = false.
Proof.
  intros Hwf Hle.
  pose proof (data_iter_show_more n s) as Hd.
  pose proof (limit_iter_show_more n s) as Hl.
  pose proof (fieldsCount_data _ _ Hd) as Hc.
  assert (allocated_before (Nat.iter n show_more s) σ) as Hwf'.
  { unfold allocated_before. by rewrite Hd. }
  split; [done|]. split.
  - rewrite length_children by done. fold (fieldsCount (Nat.iter n show_more s)).
    lia.
  - unfold_show_more_visible. fold (fieldsCount (Nat.iter n show_more s)).
    rewrite (bool_decide_eq_false_2 (limit _ < _)) by lia.
    by rewrite andb_false_r.
Qed.

(** X18: the row of a draft is inside the block of the children.  After
    [addNewProp] it is rendered exactly when the node has a field and the
    drafting composable enabled the draft: on an empty array or object the
    row is expanded and the draft begun, but no input is shown. *)
Theorem draft_row_after_addNewProp
    (addNewPropApi : string → jsval → Drafting.t) ty s σ :
  allocated_before s σ →
  0 < limit s →
  draft_row_visible getRaw getInspectorStateValueType
    (addNewProp getRaw addNewPropApi ty s) σ = true
  ↔ 0 < fieldsCount s
    ∧ Drafting.enable (addNewPropApi ty (Raw.value (raw s))) = true.
Proof.
  intros Hwf Hpos.
  set (s' := addNewProp getRaw addNewPropApi ty s).
  assert (data s' = data s ∧ limit s' = limit s
          ∧ draftingNewProp s' = addNewPropApi ty (Raw.value (raw s))
          ∧ expanded_here s' = true) as (Hd & Hl & Hdr & Hex).
  { unfold s', addNewProp, expanded_here.
    destruct (bool_decide (_ ∈ expanded s)) eqn:He; simpl.
    - by rewrite He.
    - repeat split. apply bool_decide_eq_true_2. rewrite He.
      apply elem_of_app. right. by apply list_elem_of_here. }
  assert (allocated_before s' σ) as Hwf'.
  { unfold allocated_before. by rewrite Hd. }
  pose proof (length_children getRaw getInspectorStateValueType s' σ Hwf') as Hlen.
  pose proof (fieldsCount_data _ _ Hd) as Hc.
  unfold draft_row_visible. rewrite Hex, Hdr, andb_true_r, andb_true_iff.
  unfold_hasChildren. rewrite bool_decide_eq_true.
  fold (children s' σ). fold (fieldsCount s') in Hlen.
  split; intros [H1 H2]; split; try done; lia.
Qed.

End carried.

(** ** The tree below a node *)

Section tree.
Context (getRaw : jsval → Raw.t) (getInspectorStateValueType : jsval → string)
        (toSubmit : string → option string → option jsval).

Local Abbreviation raw := (raw getRaw).
Local Abbreviation type := (type getInspectorStateValueType).
Local Abbreviation children := (children getRaw getInspectorStateValueType).
Local Abbreviation submit := (submit getRaw toSubmit).
Local Abbreviation submitDrafting := (submitDrafting toSubmit).

(** Where a child comes from: an element of the slice, or one of the keys
    shown. *)
Lemma children_origin s σ c :
  allocated_before s σ →
  c ∈ children s σ →
  match Raw.value (raw s) with
  | VArray items =>
      ∃ i item, take (limit s) items !! i = Some item
                ∧ c = array_child s (raw s) i item
  | VObject fields =>
      ∃ k, k ∈ shown_keys s fields ∧ c = object_child s (raw s) fields k
  | _ => False
  end.
Proof.
  intros Hwf Hc.
  destruct (Raw.value (raw s)) as [| | | | |items|fields] eqn:Hv;
    try (rewrite children_scalar in Hc by (by rewrite Hv);
         by apply elem_of_nil in Hc).
  - rewrite (children_array _ _ _ _ items) in Hc by done.
    apply elem_of_lookup_imap_1 in Hc as (i & y & -> & Hi). eauto.
  - rewrite (children_object _ _ _ _ fields) in Hc by done.
    assert (c ∈ object_child s (raw s) fields <$> shown_keys s fields) as Hc'.
    { destruct (String.eqb (type s) "custom"); [done|].
      unfold sort_nodes in Hc. by rewrite sort_by_perm in Hc. }
    apply list_elem_of_fmap in Hc' as (k & -> & Hk). eauto.
Qed.

(** The path [submit] hands over when the text decodes. *)
Lemma submit_path t v :
  toSubmit (editingText t) (Raw.customType (raw t)) = Some v →
  Payload.path <$> sent (submit t) = [split_dot (key (data t))].
Proof. intros Hv. unfold_submit. fold (raw t). by rewrite Hv. Qed.

Lemma submitDrafting_path s w :
  toSubmit (Drafting.value (draftingNewProp s)) None = Some w →
  Payload.path <$> sent (submitDrafting s)
  = [(split_dot (key (data s)) ++ [Drafting.key (draftingNewProp s)])%list].
Proof. intros Hw. unfold_submitDrafting. by rewrite Hw. Qed.

(** X8: a child is edited under the path of its parent extended by its own
    segments, and labelled by its own name.  When the text in the editor of
    the child decodes, the path handed over is, for the element at index
    [i], that of the parent with the one segment [i], and the label is [i];
    for the own key [k] the path gains the segments of [k] split at its
    dots, one segment when [k] has no dot, and the label is the part of [k]
    after its last dot. *)
Theorem child_path_and_label s σ c t v :
  allocated_before s σ →
  Raw.inherit (raw s) !! "key" = None →
  c ∈ children s σ →
  renders t c →
  toSubmit (editingText t) (Raw.customType (raw t)) = Some v →
  match Raw.value (raw s) with
  | VArray items =>
      ∃ i, i < length items ∧ i < limit s
           ∧ Payload.path <$> sent (submit t)
             = [(split_dot (key (data s)) ++ [index_text i])%list]
           ∧ normalizedDisplayedKey t = index_text i
  | VObject fields =>
      ∃ k, k ∈ object_keys fields
           ∧ Payload.path <$> sent (submit t)
             = [(split_dot (key (data s)) ++ split_dot k)%list]
           ∧ (lastIndexOf_dot k = None →
              Payload.path <$> sent (submit t)
              = [(split_dot (key (data s)) ++ [k])%list])
           ∧ normalizedDisplayedKey t = after_last_dot k
  | _ => False
  end.
Proof.
  intros Hwf Hk Hc (Hkey & _ & _) Hv.
  pose proof (children_origin s σ c Hwf Hc) as Ho.
  destruct (Raw.value (raw s)) as [| | | | |items|fields]; try done.
  - destruct Ho as (i & item & Hi & ->).
    unfold array_child in Hkey. rewrite child_node_key in Hkey by done.
    injection Hkey as Hkey.
    apply lookup_take_Some in Hi as [Hi Hlt].
    exists i. split; [by eapply lookup_lt_Some|]. split; [done|].
    rewrite (submit_path t v Hv). unfold normalizedDisplayedKey.
    fold (after_last_dot (key (data t))).
    rewrite <-Hkey, split_dot_app, after_last_dot_app.
    rewrite (split_dot_no_dot _ (index_text_no_dot i)).
    split; [done|]. unfold after_last_dot. by rewrite index_text_no_dot.
  - destruct Ho as (k & Hin & ->).
    unfold object_child in Hkey. rewrite child_node_key in Hkey by done.
    injection Hkey as Hkey.
    exists k. split.
    { unfold shown_keys in Hin. by eapply subseteq_take. }
    rewrite (submit_path t v Hv). unfold normalizedDisplayedKey.
    fold (after_last_dot (key (data t))).
    rewrite <-Hkey, split_dot_app, after_last_dot_app.
    split; [done|]. split; [|done].
    intros Hnd. by rewrite (split_dot_no_dot k Hnd).
Qed.

(** X9: when both texts decode, the path a draft is submitted under is the
    path under which the new property is edited once it is a child, exactly
    when the drafted key has no dot; with a dot the child is addressed by
    more segments than the draft was. *)
Theorem draft_path_is_child_path s t v w :
  key (data t)
    = key (data s) ++ "." ++ Drafting.key (draftingNewProp s) →
  toSubmit (editingText t) (Raw.customType (raw t)) = Some v →
  toSubmit (Drafting.value (draftingNewProp s)) None = Some w →
  Payload.path <$> sent (submit t) = Payload.path <$> sent (submitDrafting s)
  ↔ lastIndexOf_dot (Drafting.key (draftingNewProp s)) = None.
Proof.
  intros Hkey Hv Hw.
  rewrite (submit_path t v Hv), (submitDrafting_path s w Hw), Hkey, split_dot_app.
  split.
  - intros [= Heq%app_inv_head]. by apply split_dot_singleton in Heq.
  - intros Hnd. by rewrite (split_dot_no_dot _ Hnd).
Qed.

(** X10: below a node that is not editable, and below a set, nothing is
    editable: the [editable] of a child is not truthy, and neither is that
    of the children of the child, whatever their own custom type is. *)
Theorem descendants_not_editable s σ c t τ g :
  c ∈ children s σ →
  renders t c →
  g ∈ children t τ →
  truthy (editable (data s)) = false ∨ Raw.customType (raw s) = Some "set" →
  (∃ e, c !! "editable" = Some e ∧ truthy e = false)
  ∧ truthy (editable (data t)) = false
  ∧ (∃ e, g !! "editable" = Some e ∧ truthy e = false)
  ∧ (editable (data s) = VBool false
     ∨ (Raw.customType (raw s) = Some "set" ∧ truthy (editable (data s)) = true) →
     c !! "editable" = Some (VBool false)
     ∧ g !! "editable" = Some (VBool false)).
Proof.
  intros (k & v & ->)%children_shape (_ & _ & He) (k' & v' & ->)%children_shape Hs.
  rewrite child_node_editable in He. rewrite !child_node_editable.
  injection He as He.
  assert (truthy (child_editable s (raw s)) = false) as Hf.
  { unfold child_editable, js_and. destruct Hs as [Hs| ->].
    - by rewrite Hs.
    - rewrite bool_decide_eq_true_2 by done.
      by destruct (truthy (editable (data s))) eqn:Ht. }
  assert (child_editable t (raw t) = editable (data t)) as Hg.
  { unfold child_editable at 1. unfold js_and. by rewrite <-He, Hf. }
  split; [eauto|]. split; [by rewrite <-He|].
  split; [rewrite Hg, <-He; eauto|].
  intros Hb. rewrite Hg, <-He.
  assert (child_editable s (raw s) = VBool false) as ->; [|done].
  unfold child_editable, js_and. destruct Hb as [->|[-> ->]]; [done|].
  by rewrite bool_decide_eq_true_2.
Qed.

End tree.

(** ** The statements on explicit inputs *)

Lemma sample_allocated_before v k :
  allocated_before (sample_viewer (sample_state k v)) 1.
Proof. intros l [= <-]. lia. Defined.



Lemma children_order_witness :
  allocated_before object_b_a 1
  ∧ Raw.inherit (raw sample_getRaw object_b_a) !! "key" = None
  ∧ (StronglySorted (λ a b, String.le (node_key a) (node_key b))
       (children sample_getRaw sample_type object_b_a 1)
     ∧ ∃ ks, ks ≡ₚ ["b"; "a"]
             ∧ StronglySorted String.le ks
             ∧ children sample_getRaw sample_type object_b_a 1
               = object_child object_b_a (raw sample_getRaw object_b_a)
                   [("b", VNumber 1); ("a", VNumber 2)] <$> ks)
  ∧ node_key <$> children sample_getRaw sample_type object_b_a 1 = ["p.a"; "p.b"].
Proof.
  split; [apply sample_allocated_before|]. split; [reflexivity|].
  split; [|by vm_compute].
  exact (children_order sample_getRaw sample_type object_b_a 1
           (sample_allocated_before _ _) eq_refl).
Defined.

Lemma show_more_array_of_45_witness :
  Raw.value (raw sample_getRaw array_of_45) = VArray (replicate 45 (VNumber 7))
  ∧ length (replicate 45 (VNumber 7)) = 45
  ∧ limit array_of_45 = STATE_FIELDS_LIMIT_SIZE
  ∧ expanded_here array_of_45 = true
  ∧ length (children sample_getRaw sample_type array_of_45 1) = 30
  ∧ fieldsCount sample_getRaw array_of_45 = 45
  ∧ show_more_visible sample_getRaw sample_type array_of_45 1 = true
  ∧ limit (show_more array_of_45) = 60
  ∧ length (children sample_getRaw sample_type (show_more array_of_45) 50) = 45
  ∧ show_more_visible sample_getRaw sample_type (show_more array_of_45) 50 = false.
Proof.
  split; [reflexivity|]. split; [reflexivity|]. split; [reflexivity|].
  split; [by vm_compute|].
  destruct (show_more_array_of_45 sample_getRaw sample_type array_of_45 1 50
              (replicate 45 (VNumber 7)) eq_refl eq_refl eq_refl eq_refl)
    as (H1 & H2 & _ & _ & H5 & H6 & _ & H8 & _ & H10).
  repeat split; assumption.
Defined.

Lemma children_editable_witness :
  child_node "p.0" (VNumber 1) ∅ (VBool false)
    ∈ children sample_getRaw sample_type set_of_two 1
  ∧ editable (data set_of_two) = VBool true
  ∧ Raw.customType (raw sample_getRaw set_of_two) = Some "set"
  ∧ child_node "p.0" (VNumber 1) ∅ (VBool false) !! "editable" = Some (VBool false)
  ∧ child_node "p.0" (VNumber 1) ∅ VUndefined
      ∈ children sample_getRaw sample_type set_without_editable 1
  ∧ child_node "p.0" (VNumber 1) ∅ VUndefined !! "editable"
    = Some (editable (data set_without_editable)).
Proof.
  assert (child_node "p.0" (VNumber 1) ∅ (VBool false)
            ∈ children sample_getRaw sample_type set_of_two 1) as Hc
    by (vm_compute; apply list_elem_of_here).
  assert (child_node "p.0" (VNumber 1) ∅ VUndefined
            ∈ children sample_getRaw sample_type set_without_editable 1) as Hu
    by (vm_compute; apply list_elem_of_here).
  split; [exact Hc|]. split; [reflexivity|]. split; [reflexivity|]. split.
  - exact (proj1 (proj2 (proj2 (proj2
             (children_editable sample_getRaw sample_type set_of_two 1 _ Hc)))
             eq_refl) eq_refl).
  - split; [exact Hu|].
    exact (proj1 (proj2 (proj2
             (children_editable sample_getRaw sample_type set_without_editable 1 _
                Hu))) eq_refl).
Defined.

(** Under the set [set_without_editable], whose node has no [editable],
    the children have [editable] undefined, not false. *)
Lemma children_editable_counterexample :
  Raw.customType (raw sample_getRaw set_without_editable) = Some "set"
  ∧ editable (data set_without_editable) = VUndefined
  ∧ (λ c : node, c !! "editable")
      <$> children sample_getRaw sample_type set_without_editable 1
    = [Some VUndefined; Some VUndefined]
  ∧ [Some VUndefined; Some VUndefined] ≠ [Some (VBool false); Some (VBool false)].
Proof.
  split; [reflexivity|]. split; [reflexivity|]. split; [by vm_compute|].
  discriminate.
Qed.

Lemma children_keys_witness :
  allocated_before set_of_two 1
  ∧ Raw.inherit (raw sample_getRaw set_of_two) !! "key" = None
  ∧ ((λ c : node, c !! "key") <$> children sample_getRaw sample_type set_of_two 1
     = [Some (VString "p.0"); Some (VString "p.1")]
     ∧ ∀ c, c ∈ children sample_getRaw sample_type set_of_two 1 →
         ∃ suffix, suffix ≠ "" ∧ c !! "key" = Some (VString ("p" ++ suffix)))
  ∧ allocated_before fields_with_key 1
  ∧ Raw.inherit (raw sample_getRaw fields_with_key) !! "key" = Some (VString "k")
  ∧ ∀ c, c ∈ children sample_getRaw sample_type fields_with_key 1 →
      c !! "key" = Some (VString "k").
Proof.
  split; [apply sample_allocated_before|]. split; [reflexivity|]. split.
  - exact (proj1 (children_keys sample_getRaw sample_type set_of_two 1
                    (sample_allocated_before _ _)) eq_refl).
  - split; [apply sample_allocated_before|]. split; [reflexivity|].
    exact (proj2 (children_keys sample_getRaw sample_type fields_with_key 1
                    (sample_allocated_before _ _)) (VString "k") eq_refl).
Defined.

(** The descriptor of [fields_with_key] has an entry named key: both
    children have the key k, not p.a and p.b. *)
Lemma children_keys_counterexample :
  Raw.value (raw sample_getRaw fields_with_key)
  = VObject [("a", VNumber 1); ("b", VNumber 2)]
  ∧ key (data fields_with_key) = "p"
  ∧ (λ c : node, c !! "key")
      <$> children sample_getRaw sample_type fields_with_key 1
    = [Some (VString "k"); Some (VString "k")]
  ∧ [Some (VString "k"); Some (VString "k")]
    ≠ [Some (VString ("p" ++ "." ++ "a")); Some (VString ("p" ++ "." ++ "b"))].
Proof.
  split; [reflexivity|]. split; [reflexivity|]. split; [by vm_compute|].
  discriminate.
Qed.

Lemma normalizedDisplayedValue_priority_witness :
  normalizedDisplayedValue sample_type sample_format reactive_node = Some "Reactive"
  ∧ normalizedDisplayedValue sample_type sample_format reactive_under_ref
    ≠ Some "Reactive"
  ∧ normalizedDisplayedValue sample_type sample_format abstract_value = Some ""
  ∧ lacks_explicit_type (sample_type (value (data untyped_custom)))
      (value (data untyped_custom)) = true
  ∧ normalizedDisplayedValue sample_type sample_format untyped_custom
    = Some (state_span "custom" (DQ ++ "x" ++ DQ) ++ annotation (VString "Ref"))
  ∧ lacks_explicit_type (sample_type (value (data empty_text)))
      (value (data empty_text)) = false
  ∧ normalizedDisplayedValue sample_type sample_format empty_text
    = Some (state_span "string" (DQ ++ DQ)).
Proof.
  split; [|split; [|split; [|split; [reflexivity|split; [|split; [reflexivity|]]]]]].
  - exact (proj1 (proj2 (normalizedDisplayedValue_priority sample_type sample_format
                           reactive_node)) eq_refl eq_refl).
  - refine (proj1 (proj2 (proj2
              (normalizedDisplayedValue_priority sample_type sample_format
                 reactive_under_ref))) eq_refl _).
    discriminate.
  - refine (proj1 (proj2 (proj2 (proj2 (proj2
              (normalizedDisplayedValue_priority sample_type sample_format
                 abstract_value))))) _ eq_refl).
    discriminate.
  - destruct (proj2 (proj2 (proj2 (proj2 (proj2
                (normalizedDisplayedValue_priority sample_type sample_format
                   untyped_custom))))))
      as (body & Hq & _ & _ & Ht & _);
      [discriminate|reflexivity|right; reflexivity|].
    rewrite (Hq eq_refl) in Ht. exact (Ht eq_refl).
  - destruct (proj2 (proj2 (proj2 (proj2 (proj2
                (normalizedDisplayedValue_priority sample_type sample_format
                   empty_text))))))
      as (body & _ & He & _ & _ & Hf);
      [discriminate|reflexivity|left; reflexivity|].
    rewrite (He eq_refl) in Hf. exact (Hf eq_refl).
Defined.

(** The custom wrapper of [abstract_component] marks its fields abstract
    and no type name is the sentinel, yet the value slot is not empty; the
    node [reactive_under_ref] names the sentinel, yet its value is shown. *)
Lemma normalizedDisplayedValue_priority_counterexample :
  extraDisplayedValue abstract_component = VUndefined
  ∧ truthy (opt_member "abstract"
              (opt_member "fields"
                 (opt_member "_custom" (value (data abstract_component)))))
    = true
  ∧ normalizedDisplayedValue sample_type sample_format abstract_component
    = Some (state_span "custom" "App")
  ∧ Some (state_span "custom" "App") ≠ Some ""
  ∧ stateTypeName (data reactive_under_ref) = VString "Reactive"
  ∧ normalizedDisplayedValue sample_type sample_format reactive_under_ref
    = Some (state_span "literal" "1" ++ annotation (VString "Ref"))
  ∧ Some (state_span "literal" "1" ++ annotation (VString "Ref")) ≠ Some "Reactive".
Proof. repeat split; discriminate. Qed.

Lemma children_never_the_parent_value_witness :
  strict_eq_ref (Arr 0 [child_node "p.a" (VNumber 2) ∅ (VBool true)])
    (value_ref (data object_b_a)) = true
  ∧ elems (self_reference_guard object_b_a
             (Arr 0 [child_node "p.a" (VNumber 2) ∅ (VBool true)]) 1).1 = []
  ∧ allocated_before object_b_a 1
  ∧ 1 ≤ ref (normalizedDisplayedChildren sample_getRaw sample_type object_b_a 1).1
  ∧ strict_eq_ref (normalizedDisplayedChildren sample_getRaw sample_type object_b_a 1).1
      (value_ref (data object_b_a)) = false.
Proof.
  destruct (children_never_the_parent_value sample_getRaw sample_type object_b_a 1)
    as (Hguard & _ & H1 & _ & H3).
  split; [reflexivity|].
  split; [exact (Hguard (Arr 0 [child_node "p.a" (VNumber 2) ∅ (VBool true)]) 1 eq_refl)|].
  split; [apply sample_allocated_before|]. split; [exact H1|].
  exact (H3 (sample_allocated_before _ _)).
Defined.


Lemma draft_decoded_without_customType_witness :
  Drafting.value (draftingNewProp edit_date) = editingText edit_date
  ∧ Raw.customType (raw sample_getRaw edit_date) = Some "date"
  ∧ decoded (submitDrafting sample_toSubmit edit_date) = Some (VNumber 2020)
  ∧ decoded (submit sample_getRaw sample_toSubmit edit_date) = Some (VString "2020").
Proof.
  split; [reflexivity|]. split; [reflexivity|].
  destruct (draft_decoded_without_customType sample_getRaw sample_toSubmit
              edit_date edit_date eq_refl) as (Hd & He & _).
  split; [exact Hd|exact He].
Defined.

Lemma abstract_read_from_value_fields_witness :
  extraDisplayedValue abstract_component = VUndefined
  ∧ opt_member "fields" (value (data abstract_component)) = VUndefined
  ∧ Raw.inherit (raw sample_getRaw abstract_component) !! "abstract" = Some (VBool true)
  ∧ normalizedDisplayedValue sample_type sample_format abstract_component
    = Some (state_span "custom" "App")
  ∧ state_span "custom" "App" ≠ "".
Proof.
  split; [reflexivity|]. split; [reflexivity|]. split; [reflexivity|].
  split; [reflexivity|].
  refine (abstract_read_from_value_fields sample_type sample_format
            abstract_component _ _ eq_refl eq_refl).
  discriminate.
Defined.

Lemma children_inherited_witness :
  Raw.inherit (raw sample_getRaw fields_with_key) !! "key" = Some (VString "k")
  ∧ child_node "p.a" (VNumber 1) {["key" := VString "k"]} (VBool true)
      ∈ children sample_getRaw sample_type fields_with_key 1
  ∧ child_node "p.a" (VNumber 1) {["key" := VString "k"]} (VBool true) !! "key"
    = Some (VString "k").
Proof.
  assert (child_node "p.a" (VNumber 1) {["key" := VString "k"]} (VBool true)
            ∈ children sample_getRaw sample_type fields_with_key 1) as Hc
    by (vm_compute; apply list_elem_of_here).
  split; [reflexivity|]. split; [exact Hc|].
  refine (children_inherited sample_getRaw sample_type fields_with_key 1 _
            "key" (VString "k") _ _ eq_refl Hc); discriminate.
Defined.

Lemma show_more_visible_expanded_witness :
  allocated_before array_of_45 1
  ∧ 0 < limit array_of_45
  ∧ expanded_here array_of_45 = true
  ∧ show_more_visible sample_getRaw sample_type array_of_45 1
    = bool_decide (limit array_of_45 < fieldsCount sample_getRaw array_of_45)
  ∧ length (children sample_getRaw sample_type array_of_45 1)
    = limit array_of_45 `min` fieldsCount sample_getRaw array_of_45.
Proof.
  assert (0 < limit array_of_45) as Hpos by (simpl; unfold STATE_FIELDS_LIMIT_SIZE; lia).
  split; [apply sample_allocated_before|]. split; [exact Hpos|].
  split; [by vm_compute|].
  exact (show_more_visible_expanded sample_getRaw sample_type array_of_45 1
           (sample_allocated_before _ _) Hpos eq_refl).
Defined.

Lemma toggle_edit_session_witness :
  editing edit_session = true
  ∧ editing (sample_viewer (sample_state "n" (VNumber 5))) = false
  ∧ (on_toggleEditing sample_getRaw sample_toEdit edit_session).2 = []
  ∧ editingText (on_toggleEditing sample_getRaw sample_toEdit edit_session).1 = ""
  ∧ editingText (on_toggleEditing sample_getRaw sample_toEdit
                   (sample_viewer (sample_state "n" (VNumber 5)))).1 = "5".
Proof.
  split; [reflexivity|]. split; [reflexivity|].
  split; [exact (proj1 (toggle_edit_session sample_getRaw sample_toEdit edit_session))|].
  split.
  - exact (proj2 (proj2 (proj2 (toggle_edit_session sample_getRaw sample_toEdit
                                  edit_session)) eq_refl)).
  - exact (proj2 (proj1 (proj2 (toggle_edit_session sample_getRaw sample_toEdit
                                  (sample_viewer (sample_state "n" (VNumber 5)))))
                    eq_refl)).
Defined.

Lemma child_path_and_label_witness :
  allocated_before set_of_two 1
  ∧ Raw.inherit (raw sample_getRaw set_of_two) !! "key" = None
  ∧ child_node "p.0" (VNumber 1) ∅ (VBool false)
      ∈ children sample_getRaw sample_type set_of_two 1
  ∧ renders first_member (child_node "p.0" (VNumber 1) ∅ (VBool false))
  ∧ sample_toSubmit (editingText first_member)
      (Raw.customType (raw sample_getRaw first_member)) = Some (VNumber 3)
  ∧ (∃ i, i < 2 ∧ i < limit set_of_two
          ∧ Payload.path <$> sent (submit sample_getRaw sample_toSubmit first_member)
            = [(["p"] ++ [index_text i])%list]
          ∧ normalizedDisplayedKey first_member = index_text i)
  ∧ renders dotted_child (child_node "p.a.b" (VNumber 1) ∅ (VBool true))
  ∧ (∃ k, k ∈ ["a.b"]
          ∧ Payload.path <$> sent (submit sample_getRaw sample_toSubmit dotted_child)
            = [(["p"] ++ split_dot k)%list]
          ∧ (lastIndexOf_dot k = None →
             Payload.path <$> sent (submit sample_getRaw sample_toSubmit dotted_child)
             = [(["p"] ++ [k])%list])
          ∧ normalizedDisplayedKey dotted_child = after_last_dot k).
Proof.
  assert (child_node "p.0" (VNumber 1) ∅ (VBool false)
            ∈ children sample_getRaw sample_type set_of_two 1) as Hc
    by (vm_compute; apply list_elem_of_here).
  assert (child_node "p.a.b" (VNumber 1) ∅ (VBool true)
            ∈ children sample_getRaw sample_type dotted_key 1) as Hd
    by (vm_compute; apply list_elem_of_here).
  assert (renders first_member (child_node "p.0" (VNumber 1) ∅ (VBool false))) as Hr
    by (repeat split; reflexivity).
  assert (renders dotted_child (child_node "p.a.b" (VNumber 1) ∅ (VBool true))) as Hr'
    by (repeat split; reflexivity).
  split; [apply sample_allocated_before|]. split; [reflexivity|].
  split; [exact Hc|]. split; [exact Hr|]. split; [reflexivity|]. split.
  - exact (child_path_and_label sample_getRaw sample_type sample_toSubmit
             set_of_two 1 _ first_member (VNumber 3) (sample_allocated_before _ _)
             eq_refl Hc Hr eq_refl).
  - split; [exact Hr'|].
    exact (child_path_and_label sample_getRaw sample_type sample_toSubmit
             dotted_key 1 _ dotted_child (VNumber 3) (sample_allocated_before _ _)
             eq_refl Hd Hr' eq_refl).
Defined.

Lemma draft_path_is_child_path_witness :
  key (data drafted_child)
    = key (data draft_session) ++ "." ++ Drafting.key (draftingNewProp draft_session)
  ∧ sample_toSubmit (editingText drafted_child)
      (Raw.customType (raw sample_getRaw drafted_child)) = Some (VBool false)
  ∧ sample_toSubmit (Drafting.value (draftingNewProp draft_session)) None
    = Some (VBool true)
  ∧ lastIndexOf_dot (Drafting.key (draftingNewProp draft_session)) = None
  ∧ Payload.path <$> sent (submit sample_getRaw sample_toSubmit drafted_child)
    = Payload.path <$> sent (submitDrafting sample_toSubmit draft_session).
Proof.
  split; [reflexivity|]. split; [reflexivity|]. split; [reflexivity|].
  split; [reflexivity|].
  exact (proj2 (draft_path_is_child_path sample_getRaw sample_toSubmit
                  draft_session drafted_child (VBool false) (VBool true)
                  eq_refl eq_refl eq_refl) eq_refl).
Defined.

Lemma descendants_not_editable_witness :
  child_node "p.0" (VArray [VNumber 1]) ∅ (VBool false)
    ∈ children sample_getRaw sample_type set_of_arrays 1
  ∧ renders array_member (child_node "p.0" (VArray [VNumber 1]) ∅ (VBool false))
  ∧ child_node "p.0.0" (VNumber 1) ∅ (VBool false)
      ∈ children sample_getRaw sample_type array_member 1
  ∧ editable (data set_of_arrays) = VBool true
  ∧ Raw.customType (raw sample_getRaw set_of_arrays) = Some "set"
  ∧ Raw.customType (raw sample_getRaw array_member) = None
  ∧ truthy (editable (data array_member)) = false
  ∧ child_node "p.0.0" (VNumber 1) ∅ (VBool false) !! "editable"
    = Some (VBool false).
Proof.
  assert (child_node "p.0" (VArray [VNumber 1]) ∅ (VBool false)
            ∈ children sample_getRaw sample_type set_of_arrays 1) as Hc
    by (vm_compute; apply list_elem_of_here).
  assert (child_node "p.0.0" (VNumber 1) ∅ (VBool false)
            ∈ children sample_getRaw sample_type array_member 1) as Hg
    by (vm_compute; apply list_elem_of_here).
  assert (renders array_member
            (child_node "p.0" (VArray [VNumber 1]) ∅ (VBool false)))
    as Hr by (repeat split; reflexivity).
  destruct (descendants_not_editable sample_getRaw sample_type
              set_of_arrays 1 _ array_member 1 _ Hc Hr Hg (or_intror eq_refl))
    as (_ & Ht & _ & Hb).
  split; [exact Hc|]. split; [exact Hr|]. split; [exact Hg|].
  split; [reflexivity|]. split; [reflexivity|]. split; [reflexivity|].
  split; [exact Ht|].
  exact (proj2 (Hb (or_intror (conj eq_refl eq_refl)))).
Defined.

Lemma children_bindings_witness :
  allocated_before object_b_a 1
  ∧ Raw.inherit (raw sample_getRaw object_b_a) !! "key" = None
  ∧ Raw.inherit (raw sample_getRaw object_b_a) !! "value" = None
  ∧ NoDup (object_keys [("b", VNumber 1); ("a", VNumber 2)])
  ∧ (λ c : node, (c !! "key", c !! "value"))
      <$> children sample_getRaw sample_type object_b_a 1
    ≡ₚ (λ kv, (Some (VString ("p" ++ "." ++ kv.1)), Some kv.2))
         <$> take (limit object_b_a) [("b", VNumber 1); ("a", VNumber 2)]
  ∧ (λ c : node, c !! "value") <$> children sample_getRaw sample_type set_of_two 1
    = Some <$> take (limit set_of_two) [VNumber 1; VString "x"].
Proof.
  assert (NoDup (object_keys [("b", VNumber 1); ("a", VNumber 2)])) as Hnd.
  { apply NoDup_cons. split; [|apply NoDup_singleton].
    intros [=]%list_elem_of_singleton. }
  split; [apply sample_allocated_before|]. split; [reflexivity|].
  split; [reflexivity|]. split; [exact Hnd|]. split.
  - exact (children_bindings sample_getRaw sample_type object_b_a 1
             (sample_allocated_before _ _) eq_refl eq_refl Hnd).
  - exact (children_bindings sample_getRaw sample_type set_of_two 1
             (sample_allocated_before _ _) eq_refl eq_refl).
Defined.

Lemma children_properties_witness :
  child_node "p.a" (VNumber 1) {["key" := VString "k"]} (VBool true)
    ∈ children sample_getRaw sample_type fields_with_key 1
  ∧ dom (child_node "p.a" (VNumber 1) {["key" := VString "k"]} (VBool true))
    = {["key"; "value"; "editable"; "creating"]}
      ∪ dom (Raw.inherit (raw sample_getRaw fields_with_key))
  ∧ child_node "p.a" (VNumber 1) {["key" := VString "k"]} (VBool true) !! "creating"
    = Some (VBool false).
Proof.
  assert (child_node "p.a" (VNumber 1) {["key" := VString "k"]} (VBool true)
            ∈ children sample_getRaw sample_type fields_with_key 1) as Hc
    by (vm_compute; apply list_elem_of_here).
  split; [exact Hc|].
  exact (children_properties sample_getRaw sample_type fields_with_key 1 _ Hc).
Defined.

Lemma children_keys_distinct_witness :
  allocated_before object_b_a 1
  ∧ Raw.inherit (raw sample_getRaw object_b_a) !! "key" = None
  ∧ NoDup (object_keys [("b", VNumber 1); ("a", VNumber 2)])
  ∧ NoDup ((λ c : node, c !! "key")
             <$> children sample_getRaw sample_type object_b_a 1).
Proof.
  assert (NoDup (object_keys [("b", VNumber 1); ("a", VNumber 2)])) as Hnd.
  { apply NoDup_cons. split; [|apply NoDup_singleton].
    intros [=]%list_elem_of_singleton. }
  split; [apply sample_allocated_before|]. split; [reflexivity|].
  split; [exact Hnd|].
  refine (children_keys_distinct sample_getRaw sample_type object_b_a 1
            (sample_allocated_before _ _) eq_refl _).
  intros fields [= <-]. exact Hnd.
Defined.

Lemma hasChildren_iff_fields_witness :
  allocated_before array_of_45 1
  ∧ 0 < limit array_of_45
  ∧ 0 < fieldsCount sample_getRaw array_of_45
  ∧ hasChildren sample_getRaw sample_type array_of_45 1 = true
  ∧ length (children sample_getRaw sample_type array_of_45 1) ≤ limit array_of_45.
Proof.
  assert (0 < limit array_of_45) as Hpos
    by (simpl; unfold STATE_FIELDS_LIMIT_SIZE; lia).
  assert (0 < fieldsCount sample_getRaw array_of_45) as Hc
    by (vm_compute; lia).
  destruct (hasChildren_iff_fields sample_getRaw sample_type array_of_45 1
              (sample_allocated_before _ _) Hpos) as (Hiff & Hle & _).
  split; [apply sample_allocated_before|]. split; [exact Hpos|].
  split; [exact Hc|]. split; [exact (proj2 Hiff Hc)|exact Hle].
Defined.

Lemma show_more_only_adds_witness :
  allocated_before object_b_a 1
  ∧ allocated_before object_b_a 9
  ∧ children sample_getRaw sample_type object_b_a 1
      `sublist_of` children sample_getRaw sample_type (show_more object_b_a) 9
  ∧ isArray (Raw.value (raw sample_getRaw array_of_45)) = true
  ∧ children sample_getRaw sample_type array_of_45 1
      `prefix_of` children sample_getRaw sample_type (show_more array_of_45) 9.
Proof.
  assert (allocated_before object_b_a 9) as Hb by (intros l [= <-]; lia).
  assert (allocated_before array_of_45 9) as Ha by (intros l [= <-]; lia).
  split; [apply sample_allocated_before|]. split; [exact Hb|].
  split.
  - exact (proj1 (show_more_only_adds sample_getRaw sample_type object_b_a 1 9
                    (sample_allocated_before _ _) Hb)).
  - split; [reflexivity|].
    exact (proj2 (show_more_only_adds sample_getRaw sample_type array_of_45 1 9
                    (sample_allocated_before _ _) Ha)
             (or_introl eq_refl)).
Defined.

Lemma show_more_reaches_all_witness :
  allocated_before array_of_45 1
  ∧ fieldsCount sample_getRaw array_of_45
    ≤ limit array_of_45 + 1 * STATE_FIELDS_LIMIT_SIZE
  ∧ limit (Nat.iter 1 show_more array_of_45)
    = limit array_of_45 + 1 * STATE_FIELDS_LIMIT_SIZE
  ∧ length (children sample_getRaw sample_type (Nat.iter 1 show_more array_of_45) 1)
    = fieldsCount sample_getRaw array_of_45
  ∧ show_more_visible sample_getRaw sample_type (Nat.iter 1 show_more array_of_45) 1
    = false.
Proof.
  assert (fieldsCount sample_getRaw array_of_45
          ≤ limit array_of_45 + 1 * STATE_FIELDS_LIMIT_SIZE) as Hle
    by (vm_compute; lia).
  split; [apply sample_allocated_before|]. split; [exact Hle|].
  exact (show_more_reaches_all sample_getRaw sample_type array_of_45 1 1
           (sample_allocated_before _ _) Hle).
Defined.

Lemma edit_session_round_trip_witness :
  editing object_b_a = false
  ∧ editingText object_b_a = ""
  ∧ sample_toSubmit "7" (Raw.customType (raw sample_getRaw object_b_a))
    = Some (VNumber 7)
  ∧ on_submit sample_getRaw sample_toEdit sample_toSubmit
      (set_editingText "7"
         (on_toggleEditing sample_getRaw sample_toEdit object_b_a).1)
    = Returned object_b_a
        [Payload.mk (split_dot (key (data object_b_a))) (ctx_inspectorId object_b_a)
           (stateType (data object_b_a)) (nodeId object_b_a)
           (EditorState.mk None (editingType object_b_a) (VNumber 7))]
  ∧ sample_toSubmit "abc" (Raw.customType (raw sample_getRaw object_b_a)) = None
  ∧ on_submit sample_getRaw sample_toEdit sample_toSubmit
      (set_editingText "abc"
         (on_toggleEditing sample_getRaw sample_toEdit object_b_a).1)
    = Thrown (set_editingText "abc" (set_editing true object_b_a)) []
  ∧ on_toggleEditing sample_getRaw sample_toEdit
      (set_editingText "abc"
         (on_toggleEditing sample_getRaw sample_toEdit object_b_a).1)
    = (object_b_a, []).
Proof.
  split; [reflexivity|]. split; [reflexivity|]. split; [reflexivity|]. split.
  - exact (proj1 (edit_session_round_trip sample_getRaw sample_toEdit
                    sample_toSubmit object_b_a "7" eq_refl eq_refl)
             (VNumber 7) eq_refl).
  - split; [reflexivity|].
    destruct (edit_session_round_trip sample_getRaw sample_toEdit
                sample_toSubmit object_b_a "abc" eq_refl eq_refl)
      as (_ & Hthrow & Hcancel).
    split; [exact (Hthrow eq_refl)|exact Hcancel].
Defined.

Lemma draft_row_after_addNewProp_witness :
  allocated_before object_b_a 1
  ∧ 0 < limit object_b_a
  ∧ 0 < fieldsCount sample_getRaw object_b_a
  ∧ draft_row_visible sample_getRaw sample_type
      (addNewProp sample_getRaw sample_addNewProp "string" object_b_a) 1 = true.
Proof.
  assert (0 < limit object_b_a) as Hpos
    by (simpl; unfold STATE_FIELDS_LIMIT_SIZE; lia).
  assert (0 < fieldsCount sample_getRaw object_b_a) as Hc by (vm_compute; lia).
  split; [apply sample_allocated_before|]. split; [exact Hpos|].
  split; [exact Hc|].
  exact (proj2 (draft_row_after_addNewProp sample_getRaw sample_type
                  sample_addNewProp "string" object_b_a 1
                  (sample_allocated_before _ _) Hpos)
           (conj Hc eq_refl)).
Defined.
